(** * The jsii Python runtime: reference map and kernel facade

    A shallow embedding of

    - [jsii/_reference_map.py]  (type registries, [_FakeReference],
      [_ReferenceMap.register], [_ReferenceMap.resolve]), and
    - [jsii/_kernel/__init__.py] ([_get_overides], [_recursize_dereference],
      [_dereferenced], the [Kernel] operations),

    followed by the properties of these functions.

    Python objects live in a heap and are named by their location, so that
    object identity ([is]) is equality of locations.  Exceptions are results
    of a state-and-exception monad: a raised exception keeps every mutation
    made before it, exactly as in Python. *)

From Stdlib Require Import ZArith Ascii String.
From stdpp Require Import base option list strings gmap.

Set Warnings "-register-all,-clear-no-such-hyp".

Open Scope string_scope.
Open Scope list_scope.

(** ** Values exchanged with the kernel process *)

(** [ObjRef]: the marker the kernel uses for a remote object;
    [ref] is ["<fully.qualified.Type>@<id>"]. *)
Record ObjRef := mkObjRef { ref : string }.

#[global] Instance ObjRef_eq_dec : EqDecision ObjRef.
Proof. solve_decision. Defined.

(** Heap locations: the identity of a Python object. *)
Abbreviation loc := nat (only parsing).

Inductive scalar :=
| SNone
| SBool (b : bool)
| SInt (n : Z)
| SStr (s : string).

#[global] Instance scalar_eq_dec : EqDecision scalar.
Proof. solve_decision. Defined.

(** Hashable things that may be the key of a [dict].  [ObjRef] is a frozen
    [attr.s] class and therefore hashable. *)
Inductive key :=
| KScalar (c : scalar)
| KRef (r : ObjRef).

#[global] Instance key_eq_dec : EqDecision key.
Proof. solve_decision. Defined.

Inductive value :=
| VScalar (c : scalar)
| VRef (r : ObjRef)                   (* an [ObjRef] marker *)
| VInst (l : loc)                     (* a local object, by identity *)
| VList (xs : list value)             (* a Python [list] *)
| VDict (items : list (key * value)). (* a [Mapping]: [items()] in order *)

(** Induction over [value] that reaches below lists and mappings. *)
Section value_induction.
Variable Q : value -> Prop.
Hypothesis Hscalar : forall c, Q (VScalar c).
Hypothesis Href : forall r, Q (VRef r).
Hypothesis Hinst : forall l, Q (VInst l).
Hypothesis Hlist : forall xs, Forall Q xs -> Q (VList xs).
Hypothesis Hdict : forall items, Forall (fun kv => Q kv.2) items -> Q (VDict items).

Fixpoint value_nested_ind (v : value) : Q v :=
  match v with
  | VScalar c => Hscalar c
  | VRef r => Href r
  | VInst l => Hinst l
  | VList xs =>
      Hlist xs
        ((fix go (l : list value) : Forall Q l :=
            match l with
            | [] => Forall_nil_2 Q
            | x :: l' => Forall_cons_2 Q x l' (value_nested_ind x) (go l')
            end) xs)
  | VDict items =>
      Hdict items
        ((fix go (l : list (key * value)) : Forall (fun kv => Q kv.2) l :=
            match l with
            | [] => Forall_nil_2 _
            | kv :: l' =>
                Forall_cons_2 (fun kv => Q kv.2) kv l'
                  (value_nested_ind kv.2) (go l')
            end) items)
  end.
End value_induction.

(** [d[k] = v] on a [dict] kept as its item list: an existing key keeps its
    position, a new key goes last. *)
Fixpoint dict_set (k : key) (v : value) (d : list (key * value)) : list (key * value) :=
  match d with
  | [] => [(k, v)]
  | (k', v') :: d' =>
      if decide (k' = k) then (k, v) :: d' else (k', v') :: dict_set k v d'
  end.

(** ** Exceptions *)

Inductive exn :=
| KeyError (k : string)
| AttributeError (attribute : string)
| ValueError (msg : string)
| TypeError (msg : string)
| RecursionError
| Exception (msg : string).   (* anything else, e.g. raised by a provider *)

Inductive result (A : Type) :=
| Ok (a : A)
| Raise (e : exn).
Arguments Ok {A} a.
Arguments Raise {A} e.

(** ** Classes and instances *)

(** What [inspect.isfunction] / [inspect.isdatadescriptor] say of an object
    found in a class [__dict__]; the two are exclusive. *)
Inductive attr_kind := Function | DataDescriptor | OtherAttr.

(** An object stored under a name in a class [__dict__], or answered by
    attribute access on a class: its kind, its [__jsii_name__] attribute if
    it has one, and its [fget] attribute if it has one (a [property] always
    has [fget]; other data descriptors need not). *)
Inductive pyattr := PyAttr {
  kind : attr_kind;
  __jsii_name__ : option string;
  fget : option pyattr }.

(** A class object.  [attributes] is attribute access on the class itself:
    for every name that [getattr(klass, name, _nothing)] finds, the object
    it answers (the first entry for a name counts).  The interpreter
    computes it from more than the [__dict__]s along the MRO: a data
    descriptor of the metaclass comes first ([__name__], [__qualname__],
    [__dict__], [__module__], ...), what is found along the MRO is bound
    ([__get__]) before it is returned, and the other attributes of the
    metaclass ([mro], ...) come last.  The class therefore carries the
    outcome of that lookup, as the interpreter would give it, rather than a
    reconstruction of it. *)
Inductive pyclass := PyClass {
  cls_id : string;                          (* the class object's identity *)
  __jsii_type__ : string;
  __dict__ : list (string * pyattr);        (* in definition order *)
  ancestors : list pyclass;                 (* [mro()] after the class itself *)
  isabstract : bool;                        (* [inspect.isabstract] *)
  __jsii_proxy_class__ : option pyclass;    (* result of the hook, if defined *)
  attributes : list (string * pyattr) }.

Definition mro (c : pyclass) : list pyclass := c :: ancestors c.

(** [a is b] on class objects. *)
Definition class_is (a b : pyclass) : bool := bool_decide (cls_id a = cls_id b).

(** An instance: its class and its [__jsii_ref__] attribute, once assigned. *)
Record pyinst := PyInst {
  inst_class : pyclass;
  __jsii_ref__ : option ObjRef }.

(** A data-type descriptor: only [__jsii_type__] and the declared fields
    ([__annotations__], name and annotation) are used. *)
Record data_type := DataType {
  dt_jsii_type : string;
  __annotations__ : list (string * string) }.

(** [_FakeReference(ref)] *)
Record _FakeReference := FakeReference { fake_jsii_ref : ObjRef }.

(** A [Referenceable]: anything with a [__jsii_ref__] attribute. *)
Inductive referenceable :=
| RInst (l : loc)
| RFake (f : _FakeReference).

(** [Override(method=..., property_=..., cookie=...)] *)
Record Override := mkOverride {
  method : option string;
  property_ : option string;
  cookie : option string }.

(** ** Requests *)

Inductive Request :=
| LoadRequest (name version tarball : string)
| CreateRequest (fqn : string) (args : list value) (overrides : list Override)
| DeleteRequest (objref : ObjRef)
| GetRequest (objref : ObjRef) (property : string)
| SetRequest (objref : ObjRef) (property : string) (v : value)
| StaticGetRequest (fqn : string) (property : string)
| StaticSetRequest (fqn : string) (property : string) (v : value)
| InvokeRequest (objref : ObjRef) (meth : string) (args : list value)
| StaticInvokeRequest (fqn : string) (meth : string) (args : list value)
| StatsRequest.

(** One round trip as seen from this layer: the request that went out and,
    when the provider raised, the exception it raised. *)
Record exchange := Exchange {
  request : Request;
  failure : option exn }.

Record Statistics := mkStatistics { object_count : Z }.

(** [BaseKernel]: the provider interface.  Every method is one synchronous
    round trip on the provider's own state; the typed response is reduced to
    the one field the kernel reads ([.value], [.result], [.objectCount]). *)
Class BaseKernel (P : Type) := {
  provider_load : string -> string -> string -> P -> result unit * P;
  provider_create : string -> list value -> list Override -> P -> result ObjRef * P;
  provider_delete : ObjRef -> P -> result unit * P;
  provider_get : ObjRef -> string -> P -> result value * P;
  provider_set : ObjRef -> string -> value -> P -> result unit * P;
  provider_sget : string -> string -> P -> result value * P;
  provider_sset : string -> string -> value -> P -> result unit * P;
  provider_invoke : ObjRef -> string -> list value -> P -> result value * P;
  provider_sinvoke : string -> string -> list value -> P -> result value * P;
  provider_stats : P -> result Z * P }.

(** [str.rsplit("@", 1)[0]]: the text before the last ["@"], the whole
    string when there is none. *)
Fixpoint before_last_at (s : string) : option string :=
  match s with
  | EmptyString => None
  | String c s' =>
      match before_last_at s' with
      | Some p => Some (String c p)
      | None => if decide (c = "@"%char) then Some EmptyString else None
      end
  end.

Definition rsplit_at_head (s : string) : string := default s (before_last_at s).

(** ** Program state and the monad of effects *)

(** The process-wide state: the provider behind the [Kernel] singleton, the
    round trips made so far (kept for the statements only; nothing reads
    it), the heap of instances, the module globals [_types] and [_data_types],
    and [_refs._refs].

    [_refs] is a [WeakValueDictionary]: an entry lives as long as its value
    is reachable.  The operations below never drop a reference themselves;
    [collect] is the collector's step. *)
Record state (P : Type) := State {
  provider : P;
  sent : list exchange;
  heap : list pyinst;
  _types : gmap string pyclass;
  _data_types : gmap string data_type;
  _refs : gmap string loc }.
Arguments State {P}.
Arguments provider {P}.
Arguments sent {P}.
Arguments heap {P}.
Arguments _types {P}.
Arguments _data_types {P}.
Arguments _refs {P}.

Definition M (P A : Type) : Type := state P -> result A * state P.

Definition ret {P A} (a : A) : M P A := fun s => (Ok a, s).

Definition raise {P A} (e : exn) : M P A := fun s => (Raise e, s).

Definition bind {P A B} (m : M P A) (k : A -> M P B) : M P B :=
  fun s =>
    match m s with
    | (Ok a, s') => k a s'
    | (Raise e, s') => (Raise e, s')
    end.

Notation "x <- m ;; k" := (bind m (fun x => k))
  (at level 100, m at next level, right associativity).
Notation "m ;;; k" := (bind m (fun _ => k))
  (at level 100, right associativity).

Definition gets {P A} (f : state P -> A) : M P A := fun s => (Ok (f s), s).

Definition modify {P} (f : state P -> state P) : M P unit := fun s => (Ok tt, f s).

(** A pure computation that may raise. *)
Definition lift {P A} (r : result A) : M P A := fun s => (r, s).

Definition set_heap {P} (h : list pyinst) (s : state P) : state P :=
  State (provider s) (sent s) h (_types s) (_data_types s) (_refs s).

Definition set_refs {P} (m : gmap string loc) (s : state P) : state P :=
  State (provider s) (sent s) (heap s) (_types s) (_data_types s) m.

Definition set_types {P} (m : gmap string pyclass) (s : state P) : state P :=
  State (provider s) (sent s) (heap s) m (_data_types s) (_refs s).

Definition set_data_types {P} (m : gmap string data_type) (s : state P) : state P :=
  State (provider s) (sent s) (heap s) (_types s) m (_refs s).

(** One provider call: the provider's state advances and the exchange is
    noted, whether the call returns or raises. *)
Definition round_trip {P A} (rq : Request) (call : P -> result A * P) : M P A :=
  fun s =>
    let (r, p') := call (provider s) in
    let outcome := match r with Ok _ => None | Raise e => Some e end in
    (r, State p' (sent s ++ [Exchange rq outcome]) (heap s)
              (_types s) (_data_types s) (_refs s)).

(** ** Objects *)

(** [klass.__new__(klass)]: a new instance with no attribute set and
    [__init__] not run.  [object.__new__] refuses a class that
    [inspect.isabstract] reports abstract. *)
Definition __new__ {P} (klass : pyclass) : M P loc :=
  fun s =>
    if isabstract klass
    then (Raise (TypeError "Can't instantiate abstract class"), s)
    else (Ok (length (heap s)), set_heap (heap s ++ [PyInst klass None]) s).

(** [inst.__jsii_ref__ = r] *)
Definition setattr_jsii_ref {P} (inst : loc) (r : ObjRef) : M P unit :=
  modify (fun s =>
    set_heap (alter (fun o => PyInst (inst_class o) (Some r)) inst (heap s)) s).

(** [obj.__jsii_ref__]; an instance that was never given one raises.
    Locations come from the heap, so the lookup itself never misses in a
    run of the program. *)
Definition getattr_jsii_ref {P} (obj : referenceable) : M P ObjRef :=
  match obj with
  | RFake f => ret (fake_jsii_ref f)
  | RInst l =>
      h <- gets heap ;;
      match h !! l ≫= __jsii_ref__ with
      | Some r => ret r
      | None => raise (AttributeError "__jsii_ref__")
      end
  end.

(** [type(obj)] *)
Definition type_of {P} (obj : loc) : M P pyclass :=
  h <- gets heap ;;
  match h !! obj with
  | Some o => ret (inst_class o)
  | None => raise (Exception "no such object")
  end.

(** ** [_reference_map.py] *)

Definition register_type {P} (klass : pyclass) : M P unit :=
  modify (fun s => set_types (<[__jsii_type__ klass := klass]> (_types s)) s).

Definition register_data_type {P} (dt : data_type) : M P unit :=
  modify (fun s => set_data_types (<[dt_jsii_type dt := dt]> (_data_types s)) s).

(** [_ReferenceMap.register] *)
Definition register {P} (inst : loc) : M P unit :=
  r <- getattr_jsii_ref (RInst inst) ;;
  modify (fun s => set_refs (<[ref r := inst]> (_refs s)) s).

(** The collector reclaims the object at [l]: its entries leave [_refs]. *)
Definition collect {P} (l : loc) : M P unit :=
  modify (fun s => set_refs (filter (fun kv => kv.2 ≠ l) (_refs s)) s).

(** The [kernel] argument of [resolve]: only its [get] method is called. *)
Definition kernel_handle (P : Type) : Type := referenceable -> string -> M P value.

(** The loop filling the [dict] of a data type. *)
Fixpoint resolve_fields {P} (kernel : kernel_handle P) (r : ObjRef)
    (names : list string) (inst : list (key * value)) : M P (list (key * value)) :=
  match names with
  | [] => ret inst
  | name :: names' =>
      v <- kernel (RFake (FakeReference r)) name ;;
      resolve_fields kernel r names' (dict_set (KScalar (SStr name)) v inst)
  end.

(** [_ReferenceMap.resolve] *)
Definition resolve {P} (kernel : kernel_handle P) (r : ObjRef) : M P value :=
  refs <- gets _refs ;;
  match refs !! ref r with
  | Some inst => ret (VInst inst)
  | None =>
      let class_fqn := rsplit_at_head (ref r) in
      types <- gets _types ;;
      data_types <- gets _data_types ;;
      match types !! class_fqn with
      | Some klass =>
          klass <- (if isabstract klass
                    then match __jsii_proxy_class__ klass with
                         | Some proxy => ret proxy
                         | None => raise (AttributeError "__jsii_proxy_class__")
                         end
                    else ret klass) ;;
          inst <- __new__ klass ;;
          setattr_jsii_ref inst r ;;;
          ret (VInst inst)
      | None =>
          match data_types !! class_fqn with
          | Some data_type =>
              inst <- resolve_fields kernel r (__annotations__ data_type).*1 [] ;;
              ret (VDict inst)
          | None => raise (ValueError ("Unknown type: " ++ class_fqn))
          end
      end
  end.

Definition resolve_reference {P} := @resolve P.
Definition register_reference {P} := @register P.

(** ** [_kernel/__init__.py] *)

(** [getattr(klass, name, _nothing)]: attribute access on the class
    object, metaclass included; [None] is [_nothing]. *)
Definition getattr (klass : pyclass) (name : string) : option pyattr :=
  match list_find (fun kv => kv.1 = name) (attributes klass) with
  | Some (_, (_, a)) => Some a
  | None => None
  end.

Definition isfunction (a : pyattr) : bool :=
  match kind a with Function => true | _ => false end.

Definition isdatadescriptor (a : pyattr) : bool :=
  match kind a with DataDescriptor => true | _ => false end.

Definition hasattr_jsii_name (a : pyattr) : bool := bool_decide (is_Some (__jsii_name__ a)).

(** The body of the inner loop of [_get_overides] for one [(name, item)]:
    the list [overrides] after it, or the exception of [original.fget]. *)
Definition override_member (klass : pyclass) (name : string) (item : pyattr)
    (overrides : list Override) : result (list Override) :=
  match getattr klass name with
  | None => Ok overrides
  | Some original =>
      match isfunction item, __jsii_name__ original with
      | true, Some jsii_name =>
          Ok (overrides ++ [mkOverride (Some jsii_name) None (Some name)])
      | _, _ =>
          if isdatadescriptor item then
            match fget original with
            | None => Raise (AttributeError "fget")
            | Some getter =>
                match __jsii_name__ getter with
                | Some jsii_name =>
                    Ok (overrides ++ [mkOverride None (Some jsii_name) (Some name)])
                | None => Ok overrides
                end
            end
          else Ok overrides
      end
  end.

Fixpoint override_members (klass : pyclass) (items : list (string * pyattr))
    (overrides : list Override) : result (list Override) :=
  match items with
  | [] => Ok overrides
  | (name, item) :: items' =>
      match override_member klass name item overrides with
      | Ok overrides' => override_members klass items' overrides'
      | Raise e => Raise e
      end
  end.

(** The outer loop: [for mro_klass in type(obj).mro()], left by [break] at
    [klass]. *)
Fixpoint override_mro (klass : pyclass) (classes : list pyclass)
    (overrides : list Override) : result (list Override) :=
  match classes with
  | [] => Ok overrides
  | mro_klass :: classes' =>
      if class_is mro_klass klass then Ok overrides
      else
        match override_members klass (__dict__ mro_klass) overrides with
        | Ok overrides' => override_mro klass classes' overrides'
        | Raise e => Raise e
        end
  end.

(** [_get_overides(klass, obj)], given [type(obj)]. *)
Definition _get_overides (klass : pyclass) (type_obj : pyclass) : result (list Override) :=
  override_mro klass (mro type_obj) [].

(** [_recursize_dereference(kernel, d)].  The comprehension over
    [d.items()] fills a new [dict] item by item. *)
Fixpoint _recursize_dereference {P} (kernel : kernel_handle P) (d : value) : M P value :=
  match d with
  | VDict items =>
      out <- (fix comprehension (items : list (key * value))
                  (out : list (key * value)) : M P (list (key * value)) :=
                match items with
                | [] => ret out
                | (k, v) :: items' =>
                    v' <- _recursize_dereference kernel v ;;
                    comprehension items' (dict_set k v' out)
                end) items [] ;;
      ret (VDict out)
  | VRef r => resolve_reference kernel r
  | _ => ret d
  end.

(** The comprehension of [_recursize_dereference] on its own: the items
    still to visit and the [dict] filled so far. *)
Definition dict_comprehension {P} (kernel : kernel_handle P)
    : list (key * value) -> list (key * value) -> M P (list (key * value)) :=
  fix comprehension items out :=
    match items with
    | [] => ret out
    | (k, v) :: items' =>
        v' <- _recursize_dereference kernel v ;;
        comprehension items' (dict_set k v' out)
    end.

(** [@_dereferenced] *)
Definition _dereferenced {P A} (kernel : kernel_handle P) (fn : A -> M P value)
    : A -> M P value :=
  fun a => v <- fn a ;; _recursize_dereference kernel v.

Section Kernel.
Context {P : Type} `{BaseKernel P}.

(** [Kernel.get].  [resolve] calls back into [get] for the fields of a
    data type, and the provider decides how deep that goes, so the depth
    of nested [get] calls is bounded by [depth], as the interpreter's
    recursion limit bounds it; beyond it [RecursionError] is raised. *)
Fixpoint get (depth : nat) (obj : referenceable) (property : string) : M P value :=
  match depth with
  | 0 => raise RecursionError
  | S depth' =>
      _dereferenced (get depth')
        (fun _ : unit =>
           objref <- getattr_jsii_ref obj ;;
           round_trip (GetRequest objref property) (provider_get objref property))
        tt
  end.

(** The kernel as [resolve] sees it from an operation that itself runs at
    nesting depth [depth]. *)
Definition kernel (depth : nat) : kernel_handle P := get depth.

Definition load (name version tarball : string) : M P unit :=
  round_trip (LoadRequest name version tarball) (provider_load name version tarball).

Definition create (klass : pyclass) (obj : loc) (args : option (list value)) : M P ObjRef :=
  let args := default [] args in
  type_obj <- type_of obj ;;
  overrides <- lift (_get_overides klass type_obj) ;;
  r <- round_trip (CreateRequest (__jsii_type__ klass) args overrides)
         (provider_create (__jsii_type__ klass) args overrides) ;;
  setattr_jsii_ref obj r ;;;
  getattr_jsii_ref (RInst obj).

Definition delete (r : ObjRef) : M P unit :=
  round_trip (DeleteRequest r) (provider_delete r).

Definition set (obj : referenceable) (property : string) (v : value) : M P unit :=
  objref <- getattr_jsii_ref obj ;;
  round_trip (SetRequest objref property v) (provider_set objref property v).

Definition sget (depth : nat) (klass : pyclass) (property : string) : M P value :=
  _dereferenced (kernel depth)
    (fun _ : unit =>
       round_trip (StaticGetRequest (__jsii_type__ klass) property)
         (provider_sget (__jsii_type__ klass) property))
    tt.

Definition sset (klass : pyclass) (property : string) (v : value) : M P unit :=
  round_trip (StaticSetRequest (__jsii_type__ klass) property v)
    (provider_sset (__jsii_type__ klass) property v).

Definition invoke (depth : nat) (obj : referenceable) (meth : string)
    (args : option (list value)) : M P value :=
  _dereferenced (kernel depth)
    (fun _ : unit =>
       let args := default [] args in
       objref <- getattr_jsii_ref obj ;;
       round_trip (InvokeRequest objref meth args) (provider_invoke objref meth args))
    tt.

Definition sinvoke (depth : nat) (klass : pyclass) (meth : string)
    (args : option (list value)) : M P value :=
  _dereferenced (kernel depth)
    (fun _ : unit =>
       let args := default [] args in
       round_trip (StaticInvokeRequest (__jsii_type__ klass) meth args)
         (provider_sinvoke (__jsii_type__ klass) meth args))
    tt.

Definition stats : M P Statistics :=
  n <- round_trip StatsRequest provider_stats ;;
  ret (mkStatistics n).
End Kernel.

(** ** Specification-side definitions *)

(** A marker anywhere in a value: at the top, in a sequence, or as a key or
    a value of a mapping. *)
Fixpoint contains_marker (v : value) : bool :=
  match v with
  | VRef _ => true
  | VList xs => existsb contains_marker xs
  | VDict items =>
      existsb (fun kv =>
                 match kv.1 with KRef _ => true | KScalar _ => false end
                 || contains_marker kv.2) items
  | _ => false
  end.

(** The positions [_recursize_dereference] visits: the value itself and,
    through mappings only, the values of mappings.  [dereferenced v] says
    that none of them holds a marker. *)
Fixpoint dereferenced (v : value) : bool :=
  match v with
  | VRef _ => false
  | VDict items => forallb (fun kv => dereferenced kv.2) items
  | _ => true
  end.

(** A value that is neither a marker nor a mapping. *)
Definition plain (v : value) : bool :=
  match v with
  | VRef _ | VDict _ => false
  | _ => true
  end.

(** The classes that [_get_overides] inspects: the MRO of [type(obj)] up to,
    and without, the declared class. *)
Fixpoint chain_below (klass : pyclass) (classes : list pyclass) : list pyclass :=
  match classes with
  | [] => []
  | c :: classes' => if class_is c klass then [] else c :: chain_below klass classes'
  end.

(** The Override that one member of an inspected class gives rise to, in
    the words of the specification: a function whose same-named member of
    the declared class carries [__jsii_name__]; a data descriptor whose
    same-named member of the declared class has an accessor carrying it. *)
Definition override_of (klass : pyclass) (member : string * pyattr) : list Override :=
  match getattr klass member.1 with
  | None => []
  | Some original =>
      match kind member.2 with
      | Function =>
          match __jsii_name__ original with
          | Some remote => [mkOverride (Some remote) None (Some member.1)]
          | None => []
          end
      | DataDescriptor =>
          match fget original ≫= __jsii_name__ with
          | Some remote => [mkOverride None (Some remote) (Some member.1)]
          | None => []
          end
      | OtherAttr => []
      end
  end.

Definition overrides_spec (klass type_obj : pyclass) : list Override :=
  c ← chain_below klass (mro type_obj); m ← __dict__ c; override_of klass m.

(** A member of an inspected class that is a data descriptor while the
    same-named member of the declared class exists and has no [fget]. *)
Definition member_lacks_accessor (klass : pyclass) (member : string * pyattr) : bool :=
  isdatadescriptor member.2 &&
  match getattr klass member.1 with
  | Some original => match fget original with None => true | Some _ => false end
  | None => false
  end.

(** Some inspected class has such a member. *)
Definition accessor_missing (klass type_obj : pyclass) : bool :=
  existsb (λ c, existsb (member_lacks_accessor klass) (__dict__ c))
    (chain_below klass (mro type_obj)).

(** The provider answering, one [get] after the other, the fields [names]
    of the data value behind [r], each with a value that needs no
    dereferencing: the values and the provider's state after the last. *)
Fixpoint serve_fields {P} `{BaseKernel P} (r : ObjRef) (names : list string) (p : P)
    : option (list value * P) :=
  match names with
  | [] => Some ([], p)
  | name :: names' =>
      match provider_get r name p with
      | (Ok v, p') =>
          if plain v then
            match serve_fields r names' p' with
            | Some (vs, p'') => Some (v :: vs, p'')
            | None => None
            end
          else None
      | (Raise _, _) => None
      end
  end.

(** The key of a field in the [dict] of a data value. *)
Definition field_key (name : string) : key := KScalar (SStr name).

(** The exchange of a successful [get] of field [name] through [r]. *)
Definition field_get (r : ObjRef) (name : string) : exchange :=
  Exchange (GetRequest r name) None.

(** Between two states: the Reference Map and the registries are the same
    and every object that existed still exists unchanged. *)
Definition untouched {P} (s s' : state P) : Prop :=
  _refs s' = _refs s ∧ _types s' = _types s ∧ _data_types s' = _data_types s ∧
  heap s `prefix_of` heap s'.

(** The exchanges of one run, [new], against its outcome [r]: a failed
    round trip is the last one made and its exception is the outcome. *)
Definition failure_final {A} (new : list exchange) (r : result A) : Prop :=
  ∀ i x e, new !! i = Some x → failure x = Some e → S i = length new ∧ r = Raise e.

(** What a computation that only reads local state and talks to the
    provider satisfies. *)
Definition transparent {P A} (m : M P A) : Prop :=
  ∀ s r s', m s = (r, s') →
    untouched s s' ∧ ∃ new, sent s' = sent s ++ new ∧ failure_final new r.

(** ** [kernel/__init__.py]

    The module [jsii.kernel]: a [Kernel] whose operations take references
    rather than objects and hand the provider's answer back as it is.
    [CreateRequest(fqn=...)] leaves [args] and [overrides] to the defaults
    of the request class, which is declared elsewhere; they are arguments
    here. *)
Module jsii_kernel.
Section Kernel.
Context {P : Type} `{BaseKernel P}.

Definition load (name version tarball : string) : M P unit :=
  round_trip (LoadRequest name version tarball) (provider_load name version tarball).

Definition create (default_args : list value) (default_overrides : list Override)
    (klass : pyclass) : M P ObjRef :=
  round_trip (CreateRequest (__jsii_type__ klass) default_args default_overrides)
    (provider_create (__jsii_type__ klass) default_args default_overrides).

Definition delete (r : ObjRef) : M P unit :=
  round_trip (DeleteRequest r) (provider_delete r).

Definition get (r : ObjRef) (property : string) : M P value :=
  round_trip (GetRequest r property) (provider_get r property).

Definition set (r : ObjRef) (property : string) (v : value) : M P unit :=
  round_trip (SetRequest r property v) (provider_set r property v).

Definition sget (klass : pyclass) (property : string) : M P value :=
  round_trip (StaticGetRequest (__jsii_type__ klass) property)
    (provider_sget (__jsii_type__ klass) property).

Definition sset (klass : pyclass) (property : string) (v : value) : M P unit :=
  round_trip (StaticSetRequest (__jsii_type__ klass) property v)
    (provider_sset (__jsii_type__ klass) property v).

Definition invoke (r : ObjRef) (meth : string) (args : option (list value)) : M P value :=
  let args := default [] args in
  round_trip (InvokeRequest r meth args) (provider_invoke r meth args).

Definition sinvoke (klass : pyclass) (meth : string) (args : option (list value))
    : M P value :=
  let args := default [] args in
  round_trip (StaticInvokeRequest (__jsii_type__ klass) meth args)
    (provider_sinvoke (__jsii_type__ klass) meth args).

Definition stats : M P Statistics :=
  resp <- round_trip StatsRequest provider_stats ;;
  ret (mkStatistics resp).
End Kernel.
End jsii_kernel.

(** ** More specification-side definitions *)

(** ["@" in s] *)
Fixpoint contains_at (s : string) : bool :=
  match s with
  | EmptyString => false
  | String c s' => bool_decide (c = "@"%char) || contains_at s'
  end.

(** Every mapping reached through mappings has distinct keys, as every
    [dict] has. *)
Fixpoint keys_distinct (v : value) : bool :=
  match v with
  | VDict items =>
      bool_decide (NoDup items.*1) && forallb (fun kv => keys_distinct kv.2) items
  | _ => true
  end.

(** The number of members of the classes in a list. *)
Definition member_count (classes : list pyclass) : nat :=
  sum_list (map (fun c => length (__dict__ c)) classes).



(** A computation that is one call of the provider and nothing else: the
    provider's state moves on, the exchange is noted, the local state stays,
    and the outcome is the provider's own, a value passing through [f], an
    exception as it is. *)
Definition relays {P A B} (m : M P B) (rq : Request) (call : P -> result A * P)
    (f : A -> B) : Prop :=
  ∀ s,
    m s =
    (match (call (provider s)).1 with Ok a => Ok (f a) | Raise e => Raise e end,
     State (call (provider s)).2
       (sent s ++
          [Exchange rq
             match (call (provider s)).1 with Ok _ => None | Raise e => Some e end])
       (heap s) (_types s) (_data_types s) (_refs s)).

(** ** A scripted provider

    A provider that plays back a list of canned answers, one per round
    trip, whatever the request: enough to run the operations. *)
Module Scripted.
Definition script := list (result value).

Definition answer {A} (decode : value -> result A) (p : script) : result A * script :=
  match p with
  | [] => (Raise (Exception "script exhausted"), [])
  | Ok v :: p' => (decode v, p')
  | Raise e :: p' => (Raise e, p')
  end.

Definition as_unit (_ : value) : result unit := Ok tt.
Definition as_value (v : value) : result value := Ok v.
Definition as_ref (v : value) : result ObjRef :=
  match v with VRef r => Ok r | _ => Raise (TypeError "not an ObjRef") end.
Definition as_int (v : value) : result Z :=
  match v with VScalar (SInt n) => Ok n | _ => Raise (TypeError "not an int") end.

#[global] Instance playback : BaseKernel script := {|
  provider_load _ _ _ := answer as_unit;
  provider_create _ _ _ := answer as_ref;
  provider_delete _ := answer as_unit;
  provider_get _ _ := answer as_value;
  provider_set _ _ _ := answer as_unit;
  provider_sget _ _ := answer as_value;
  provider_sset _ _ _ := answer as_unit;
  provider_invoke _ _ _ := answer as_value;
  provider_sinvoke _ _ _ := answer as_value;
  provider_stats := answer as_int |}.

(** A remote-bound method and property, as the generated bindings
    declare them, and their local redefinitions. *)
Definition jsii_method (n : string) : pyattr := PyAttr Function (Some n) None.
Definition jsii_property (n : string) : pyattr :=
  PyAttr DataDescriptor None (Some (PyAttr Function (Some n) None)).
Definition local_def : pyattr := PyAttr Function None None.
Definition local_property : pyattr :=
  PyAttr DataDescriptor None (Some (PyAttr Function None None)).
(** The [__dict__] and [__weakref__] slots that a class deriving from
    [object] alone gets: data descriptors without [fget]. *)
Definition dict_slot : pyattr := PyAttr DataDescriptor None None.
(** Objects with neither [__jsii_name__] nor [fget]: a [str], [None], a
    [tuple], a mapping proxy, a slot wrapper, a built-in method. *)
Definition plain_object : pyattr := PyAttr OtherAttr None None.

(** What attribute access on a class whose metaclass derives from [type]
    takes from the metaclass before it looks at the class: the data
    descriptors of [type]. *)
Definition type_data_descriptors : list (string * pyattr) :=
  [("__name__", plain_object); ("__qualname__", plain_object);
   ("__module__", plain_object); ("__doc__", plain_object);
   ("__dict__", plain_object); ("__bases__", plain_object);
   ("__base__", plain_object); ("__mro__", plain_object)].

(** and after it has looked at the class. *)
Definition type_other_attributes : list (string * pyattr) :=
  [("mro", plain_object); ("__subclasses__", plain_object);
   ("__call__", plain_object); ("__instancecheck__", plain_object);
   ("__subclasscheck__", plain_object); ("__prepare__", plain_object)].

(** A class of functions, properties and plain values, with a metaclass
    that adds nothing to [type]: its attribute access, built in the order
    the interpreter follows ([__get__] leaves functions and properties as
    they are). *)
Definition class_ (id jsii_type : string) (dict : list (string * pyattr))
    (bases_mro : list pyclass) (abstract : bool) (proxy : option pyclass) : pyclass :=
  PyClass id jsii_type dict bases_mro abstract proxy
    (type_data_descriptors ++ dict ++ concat (map __dict__ bases_mro)
       ++ type_other_attributes).

(** [object], as far as its own [__dict__] matters here. *)
Definition object_ : pyclass :=
  class_ "object" ""
    [("__new__", plain_object); ("__init__", plain_object);
     ("__repr__", plain_object); ("__doc__", plain_object)]
    [] false None.

Definition Foo : pyclass :=
  class_ "Foo" "Foo"
    [("__module__", plain_object);
     ("hello", jsii_method "hello"); ("bar", jsii_property "bar");
     ("helper", local_def);
     ("__dict__", dict_slot); ("__weakref__", dict_slot); ("__doc__", plain_object)]
    [object_] false None.

(** [class Sub(Foo)] redefining [hello], [bar] and [helper], and adding
    [extra]. *)
Definition Sub : pyclass :=
  class_ "Sub" "Foo"
    [("__module__", plain_object);
     ("hello", local_def); ("extra", local_def); ("bar", local_property);
     ("helper", local_def); ("__doc__", plain_object)]
    [Foo; object_] false None.

(** [class Mixin: pass] and [class Mixed(Mixin, Foo)]. *)
Definition Mixin : pyclass :=
  class_ "Mixin" ""
    [("__module__", plain_object); ("__dict__", dict_slot);
     ("__weakref__", dict_slot); ("__doc__", plain_object)]
    [object_] false None.
Definition Mixed : pyclass :=
  class_ "Mixed" "Foo" [("__module__", plain_object); ("__doc__", plain_object)]
    [Mixin; Foo; object_] false None.

(** [class Named(Foo)] with a property called [__name__]: on the class
    [Foo] that name is answered by the metaclass, with a [str]. *)
Definition Named : pyclass :=
  class_ "Named" "Foo"
    [("__module__", plain_object); ("__name__", local_property);
     ("__doc__", plain_object)]
    [Foo; object_] false None.

(** An abstract class and its generated proxy. *)
Definition ShapeProxy : pyclass := class_ "_ShapeProxy" "Shape" [] [object_] false None.
Definition Shape : pyclass := class_ "Shape" "Shape" [] [object_] true (Some ShapeProxy).

Definition Point : data_type := DataType "Point" [("x", "int"); ("y", "int")].

Definition foo1 : ObjRef := mkObjRef "Foo@1".
Definition shape1 : ObjRef := mkObjRef "Shape@1".
Definition point1 : ObjRef := mkObjRef "Point@1".
Definition nope1 : ObjRef := mkObjRef "Nope@1".

Definition registries_only (p : script) : state script :=
  State p [] []
    (<["Foo" := Foo]> (<["Shape" := Shape]> ∅))
    (<["Point" := Point]> ∅)
    ∅.

(** One application object of class [Sub], not yet created remotely. *)
Definition with_object (p : script) : state script :=
  set_heap [PyInst Sub None] (registries_only p).
End Scripted.

(** * Properties *)

(** ** Reasoning about monadic code *)

Lemma bind_inv {P A B} (m : M P A) (k : A -> M P B) s r s' :
  bind m k s = (r, s') ->
  (∃ a s1, m s = (Ok a, s1) ∧ k a s1 = (r, s')) ∨
  (∃ e, m s = (Raise e, s') ∧ r = Raise e).
Proof.
  unfold bind. destruct (m s) as [[a|e] s1]; intros Hk.
  - left. eauto.
  - right. inversion Hk; subst. eauto.
Qed.

Lemma bind_ok {P A B} (m : M P A) (k : A -> M P B) s a s1 :
  m s = (Ok a, s1) -> bind m k s = k a s1.
Proof. unfold bind. by intros ->. Qed.

Lemma bind_raise {P A B} (m : M P A) (k : A -> M P B) s e s1 :
  m s = (Raise e, s1) -> bind m k s = (Raise e, s1).
Proof. unfold bind. by intros ->. Qed.

(** Splits a hypothesis [(x <- m ;; k) s = (r, s')] into its two cases. *)
Ltac bind_cases H :=
  let a := fresh "a" in
  let s1 := fresh "s1" in
  let e := fresh "e" in
  let Hm := fresh "Hm" in
  let Hk := fresh "Hk" in
  apply bind_inv in H as [(a & s1 & Hm & Hk) | (e & Hm & ->)].

(** The same when the outcome is known to be a value. *)
Ltac bind_success H :=
  let a := fresh "a" in
  let s1 := fresh "s1" in
  let e := fresh "e" in
  let Hm := fresh "Hm" in
  let Hk := fresh "Hk" in
  apply bind_inv in H as [(a & s1 & Hm & Hk) | (e & _ & [=])].

#[global] Instance untouched_refl {P} : Reflexive (@untouched P).
Proof. by intros s. Qed.

#[global] Instance untouched_trans {P} : Transitive (@untouched P).
Proof.
  intros s1 s2 s3 (? & ? & ? & ?) (? & ? & ? & ?).
  repeat split; try congruence. by etrans.
Qed.

Lemma failure_final_nil {A} (r : result A) : failure_final [] r.
Proof. intros i x e Hi. by rewrite lookup_nil in Hi. Qed.


Lemma failure_final_app {A B} new1 new2 (a : A) (r : result B) :
  failure_final new1 (Ok a) -> failure_final new2 r -> failure_final (new1 ++ new2) r.
Proof.
  intros H1 H2 i x e Hi He.
  apply lookup_app_Some in Hi as [Hi | [Hlen Hi]].
  - by destruct (H1 i x e Hi He) as [_ ?].
  - destruct (H2 _ x e Hi He) as [Hl ->]. split; [|done].
    rewrite length_app. lia.
Qed.

Lemma failure_final_raise {A B} new e :
  failure_final new (Raise e : result A) -> failure_final new (Raise e : result B).
Proof.
  intros Hf i x e' Hi He. destruct (Hf i x e' Hi He) as [? [= ->]]. done.
Qed.

Lemma transparent_ret {P A} (a : A) : transparent (ret a : M P A).
Proof.
  intros s r s' [= <- <-]. split; [done|].
  exists []. rewrite app_nil_r. auto using failure_final_nil.
Qed.

Lemma transparent_raise {P A} e : transparent (raise e : M P A).
Proof.
  intros s r s' [= <- <-]. split; [done|].
  exists []. rewrite app_nil_r. auto using failure_final_nil.
Qed.

Lemma transparent_gets {P A} (f : state P -> A) : transparent (gets f).
Proof.
  intros s r s' [= <- <-]. split; [done|].
  exists []. rewrite app_nil_r. auto using failure_final_nil.
Qed.


Lemma transparent_bind {P A B} (m : M P A) (k : A -> M P B) :
  transparent m -> (∀ a, transparent (k a)) -> transparent (bind m k).
Proof.
  intros Hm Hk s r s' Hrun. bind_cases Hrun.
  - destruct (Hm _ _ _ Hm0) as (Hu1 & new1 & Hs1 & Hf1).
    destruct (Hk _ _ _ _ Hk0) as (Hu2 & new2 & Hs2 & Hf2).
    split; [by etrans|].
    exists (new1 ++ new2). split.
    + by rewrite Hs2, Hs1, (assoc_L (++)).
    + eauto using failure_final_app.
  - destruct (Hm _ _ _ Hm0) as (Hu1 & new1 & Hs1 & Hf1).
    split; [done|]. exists new1. eauto using failure_final_raise.
Qed.

Lemma transparent_round_trip {P A} rq (call : P -> result A * P) :
  transparent (round_trip rq call).
Proof.
  intros s r s'. unfold round_trip.
  destruct (call (provider s)) as [r0 p'] eqn:Hcall. intros [= <- <-].
  split; [done|]. eexists. split; [reflexivity|].
  intros i x e Hi He. destruct i as [|i]; simplify_eq/=.
  by destruct r0; simplify_eq/=.
Qed.

Lemma transparent_getattr_jsii_ref {P} obj : transparent (@getattr_jsii_ref P obj).
Proof.
  destruct obj as [l|f]; simpl; [|apply transparent_ret].
  apply transparent_bind; [apply transparent_gets|].
  intros h. destruct (h !! l ≫= __jsii_ref__); auto using transparent_ret, transparent_raise.
Qed.

(** Allocation followed by the assignment of the new object's reference
    only appends to the heap. *)
Lemma new_instance_run {P} (klass : pyclass) (r : ObjRef) (s : state P) :
  isabstract klass = false ->
  (inst <- __new__ klass ;; setattr_jsii_ref inst r ;;; ret (VInst inst)) s
  = (Ok (VInst (length (heap s))), set_heap (heap s ++ [PyInst klass (Some r)]) s).
Proof.
  intros Hc. unfold bind, __new__, setattr_jsii_ref, modify, ret. rewrite Hc.
  unfold set_heap. simpl.
  rewrite alter_app_r_alt by lia. by rewrite Nat.sub_diag.
Qed.

Lemma transparent_new_instance {P} (klass : pyclass) (r : ObjRef) :
  transparent (inst <- @__new__ P klass ;; setattr_jsii_ref inst r ;;; ret (VInst inst)).
Proof.
  intros s res s' Hrun. destruct (isabstract klass) eqn:Hc.
  - unfold bind, __new__ in Hrun. rewrite Hc in Hrun. injection Hrun as <- <-.
    split; [done|]. exists []. rewrite app_nil_r. auto using failure_final_nil.
  - rewrite new_instance_run in Hrun by done. injection Hrun as <- <-.
    split.
    + repeat split; simpl. by apply prefix_app_r.
    + exists []. simpl. rewrite app_nil_r. auto using failure_final_nil.
Qed.

Section handle.
Context {P : Type} (k : kernel_handle P).
Hypothesis k_transparent : ∀ obj name, transparent (k obj name).

Lemma transparent_resolve_fields r names inst :
  transparent (resolve_fields k r names inst).
Proof.
  revert inst. induction names as [|name names IH]; intros inst; simpl.
  - apply transparent_ret.
  - apply transparent_bind; auto.
Qed.

Lemma transparent_resolve r : transparent (resolve k r).
Proof.
  unfold resolve.
  apply transparent_bind; [apply transparent_gets|]. intros refs.
  destruct (refs !! ref r); [apply transparent_ret|].
  apply transparent_bind; [apply transparent_gets|]. intros types.
  apply transparent_bind; [apply transparent_gets|]. intros dts.
  destruct (types !! _) as [klass|].
  - apply transparent_bind.
    + destruct (isabstract klass); [|apply transparent_ret].
      destruct (__jsii_proxy_class__ klass); auto using transparent_ret, transparent_raise.
    + intros klass'. apply transparent_new_instance.
  - destruct (dts !! _) as [dt|]; [|apply transparent_raise].
    apply transparent_bind; [apply transparent_resolve_fields|].
    intros. apply transparent_ret.
Qed.

Lemma transparent_recursize_dereference d : transparent (_recursize_dereference k d).
Proof.
  induction d as [c|r|l|xs _|items IH] using value_nested_ind; simpl;
    try apply transparent_ret.
  - apply transparent_resolve.
  - apply transparent_bind; [|intros; apply transparent_ret].
    generalize (@nil (key * value)).
    induction IH as [|[k0 v] items Hv _ IHitems]; intros out.
    + apply transparent_ret.
    + apply transparent_bind; [exact Hv|]. intros v'. apply IHitems.
Qed.

Lemma transparent_dereferenced {A} (fn : A -> M P value) a :
  transparent (fn a) -> transparent (_dereferenced k fn a).
Proof.
  intros Hfn. unfold _dereferenced.
  apply transparent_bind; [done|]. intros. apply transparent_recursize_dereference.
Qed.
End handle.

(** ** The kernel operations only read local state *)

Section Kernel_transparent.
Context {P : Type} `{BaseKernel P}.

Lemma transparent_get depth obj property : transparent (get depth obj property).
Proof.
  revert obj property. induction depth as [|depth IH]; intros obj property; simpl.
  - apply transparent_raise.
  - apply transparent_dereferenced; [exact IH|].
    apply transparent_bind; [apply transparent_getattr_jsii_ref|].
    intros. apply transparent_round_trip.
Qed.

Lemma transparent_kernel depth obj name : transparent (kernel depth obj name).
Proof. apply transparent_get. Qed.







Lemma create_run klass obj args s :
  create klass obj args s =
  bind (type_obj <- type_of obj ;;
        overrides <- lift (_get_overides klass type_obj) ;;
        round_trip (CreateRequest (__jsii_type__ klass) (default [] args) overrides)
          (provider_create (__jsii_type__ klass) (default [] args) overrides))
       (fun r => setattr_jsii_ref obj r ;;; getattr_jsii_ref (RInst obj)) s.
Proof.
  unfold create, bind.
  destruct (type_of obj s) as [[t|e] s1]; [|done].
  destruct (lift (_get_overides klass t) s1) as [[o|e] s2]; [|done].
  by destruct (round_trip _ _ s2) as [[r|e] s3].
Qed.


Lemma assign_run obj (r : ObjRef) (s : state P) o :
  heap s !! obj = Some o ->
  (setattr_jsii_ref obj r ;;; getattr_jsii_ref (RInst obj)) s =
  (Ok r, set_heap (<[obj := PyInst (inst_class o) (Some r)]> (heap s)) s).
Proof.
  intros Ho. unfold setattr_jsii_ref, modify, getattr_jsii_ref, gets, ret, bind. simpl.
  rewrite list_lookup_alter_eq, Ho. simpl.
  do 2 f_equal. apply list_eq. intros i.
  destruct (decide (i = obj)) as [->|Hne].
  - rewrite list_lookup_alter_eq, Ho, list_lookup_insert_eq; [done|].
    by eapply lookup_lt_Some.
  - by rewrite list_lookup_alter_ne, list_lookup_insert_ne.
Qed.

End Kernel_transparent.

(** ** [_ReferenceMap.resolve] *)

(** A reference that the map holds is answered from the map, whatever its
    type name, and nothing changes. *)
Lemma resolve_held {P} (k : kernel_handle P) (r : ObjRef) (s : state P) (l : loc) :
  _refs s !! ref r = Some l -> resolve k r s = (Ok (VInst l), s).
Proof. intros Hl. unfold resolve, bind, gets. simpl. by rewrite Hl. Qed.

(** Once the collector has reclaimed an object, the map no longer answers
    for the references that named it. *)
Lemma collect_forgets {P} (s : state P) (l : loc) (x : string) :
  _refs s !! x = Some l -> _refs (collect l s).2 !! x = None.
Proof.
  intros Hx. unfold collect, modify. simpl.
  apply map_lookup_filter_None. right. intros l' Hl'. simpl. congruence.
Qed.

(** C7. A reference that the map does not hold and whose type name, the
    text before its last ["@"], is registered neither in [_types] nor in
    [_data_types]: [resolve] raises the unknown-type [ValueError], and the
    state it leaves, Reference Map included, is the state it was given. *)
Theorem resolve_unknown_type {P} (k : kernel_handle P) (r : ObjRef) (s : state P) :
  _refs s !! ref r = None ->
  _types s !! rsplit_at_head (ref r) = None ->
  _data_types s !! rsplit_at_head (ref r) = None ->
  resolve k r s = (Raise (ValueError ("Unknown type: " ++ rsplit_at_head (ref r))), s).
Proof.
  intros Hr Ht Hd. unfold resolve, bind, gets, raise. simpl.
  by rewrite Hr, Ht, Hd.
Qed.

Lemma resolve_unknown_type_witness :
  resolve (kernel 1) Scripted.nope1 (Scripted.registries_only [])
  = (Raise (ValueError "Unknown type: Nope"), Scripted.registries_only []).
Proof.
  apply (resolve_unknown_type (kernel 1) Scripted.nope1 (Scripted.registries_only []));
    vm_compute; reflexivity.
Defined.

(** A reference that the map does not hold and whose type name is in
    [_types]: the run of [resolve], given the class to instantiate. *)
Lemma resolve_new_proxy {P} (k : kernel_handle P) (r : ObjRef) (s : state P)
    (klass target : pyclass) :
  _refs s !! ref r = None ->
  _types s !! rsplit_at_head (ref r) = Some klass ->
  (if isabstract klass then __jsii_proxy_class__ klass = Some target else target = klass) ->
  isabstract target = false ->
  resolve k r s =
  (Ok (VInst (length (heap s))),
   State (provider s) (sent s) (heap s ++ [PyInst target (Some r)])
         (_types s) (_data_types s) (_refs s)).
Proof.
  intros Hr Ht Htarget Hconcrete.
  assert (∀ s0 : state P,
    (if isabstract klass
     then match __jsii_proxy_class__ klass with
          | Some proxy => ret proxy
          | None => raise (AttributeError "__jsii_proxy_class__")
          end
     else ret klass) s0 = (Ok target, s0)) as Hsel.
  { intros s0. destruct (isabstract klass); [by rewrite Htarget|by subst]. }
  unfold resolve. unfold gets at 1. unfold bind at 1.
  rewrite Hr. unfold gets. unfold bind at 1. unfold bind at 1. rewrite Ht.
  erewrite bind_ok by apply Hsel.
  by rewrite new_instance_run.
Qed.

(** C4, as the code has it.  A reference that the map does not hold and
    whose type name is registered in [_types]: [resolve] allocates one new
    instance (at a location no object had) of the registered class, or of
    its proxy class when the registered class is abstract, assigns the
    reference to it and returns it.  No round trip is made, so no
    initializer has created anything remotely, and the Reference Map is as
    it was: the new instance is not registered. *)
Theorem resolve_object_type {P} (k : kernel_handle P) (r : ObjRef) (s : state P)
    (klass target : pyclass) :
  _refs s !! ref r = None ->
  _types s !! rsplit_at_head (ref r) = Some klass ->
  (if isabstract klass then __jsii_proxy_class__ klass = Some target else target = klass) ->
  isabstract target = false ->
  resolve k r s =
  (Ok (VInst (length (heap s))),
   State (provider s) (sent s) (heap s ++ [PyInst target (Some r)])
         (_types s) (_data_types s) (_refs s)) ∧
  heap s !! length (heap s) = None ∧
  _refs (resolve k r s).2 = _refs s.
Proof.
  intros Hr Ht Htarget Hconcrete.
  rewrite (resolve_new_proxy k r s klass target) by done.
  split; [done|]. split; [|done]. by apply lookup_ge_None.
Qed.

Lemma resolve_object_type_witness :
  resolve (kernel 1) Scripted.shape1 (Scripted.registries_only [])
  = (Ok (VInst 0),
     State [] [] [PyInst Scripted.ShapeProxy (Some Scripted.shape1)]
       (_types (Scripted.registries_only [])) (_data_types (Scripted.registries_only []))
       (_refs (Scripted.registries_only []))).
Proof.
  apply (resolve_object_type (kernel 1) Scripted.shape1 (Scripted.registries_only [])
           Scripted.Shape Scripted.ShapeProxy); vm_compute; reflexivity.
Defined.

(** C4 as stated fails: after [resolve] has created the proxy for the
    unseen reference ["Foo@1"], the Reference Map has no entry for it. *)
Lemma resolve_object_type_not_registered :
  (resolve (kernel 1) Scripted.foo1 (Scripted.registries_only [])).1 = Ok (VInst 0) ∧
  _refs (resolve (kernel 1) Scripted.foo1 (Scripted.registries_only [])).2
    !! ref Scripted.foo1 = None.
Proof. split; vm_compute; reflexivity. Qed.

(** C1 as stated fails: two resolutions of the unseen reference ["Foo@1"]
    return the objects at locations 0 and 1; the first is still in the heap
    when the second is made. *)
Lemma resolve_twice_two_objects :
  (resolve (kernel 1) Scripted.foo1 (Scripted.registries_only [])).1 = Ok (VInst 0) ∧
  (resolve (kernel 1) Scripted.foo1
     (resolve (kernel 1) Scripted.foo1 (Scripted.registries_only [])).2).1 = Ok (VInst 1) ∧
  heap (resolve (kernel 1) Scripted.foo1
          (resolve (kernel 1) Scripted.foo1 (Scripted.registries_only [])).2).2 !! 0
    = Some (PyInst Scripted.Foo (Some Scripted.foo1)) ∧
  VInst 0 ≠ VInst 1.
Proof. repeat split; try (vm_compute; reflexivity). discriminate. Qed.

(** C1, as the code has it.  While the Reference Map holds an object for a
    reference, every resolution returns that same object and leaves the
    state as it is, so a second resolution returns it again.  A proxy that
    [resolve] creates for an unseen reference is not recorded: the next
    resolution of the same reference creates another object, at the next
    location, and the map is still as it was. *)
Theorem resolve_identity {P} (k : kernel_handle P) (r : ObjRef) (s : state P) :
  (∀ l, _refs s !! ref r = Some l ->
     resolve k r s = (Ok (VInst l), s) ∧
     (resolve k r ;;; resolve k r) s = (Ok (VInst l), s)) ∧
  (∀ klass, _refs s !! ref r = None ->
     _types s !! rsplit_at_head (ref r) = Some klass ->
     isabstract klass = false ->
     ∃ s1 s2,
       resolve k r s = (Ok (VInst (length (heap s))), s1) ∧
       resolve k r s1 = (Ok (VInst (S (length (heap s)))), s2) ∧
       _refs s1 = _refs s ∧ _refs s2 = _refs s).
Proof.
  split.
  - intros l Hl. split; [by apply resolve_held|].
    erewrite bind_ok by by apply resolve_held. by apply resolve_held.
  - intros klass Hr Ht Hc.
    do 2 eexists. split; [|split].
    + apply (resolve_new_proxy k r s klass klass); by rewrite ?Hc.
    + erewrite (resolve_new_proxy k r _ klass klass); simpl; rewrite ?Hc; try done.
      by rewrite length_app, Nat.add_1_r.
    + done.
Qed.

Lemma resolve_identity_witness :
  resolve (kernel 1) Scripted.foo1
    (set_refs (<["Foo@1" := 0]> ∅) (Scripted.with_object []))
  = (Ok (VInst 0), set_refs (<["Foo@1" := 0]> ∅) (Scripted.with_object [])) ∧
  ∃ s1 s2,
    resolve (kernel 1) Scripted.foo1 (Scripted.registries_only []) = (Ok (VInst 0), s1) ∧
    resolve (kernel 1) Scripted.foo1 s1 = (Ok (VInst 1), s2) ∧
    _refs s1 = ∅ ∧ _refs s2 = ∅.
Proof.
  split.
  - apply (resolve_identity (kernel 1) Scripted.foo1
             (set_refs (<["Foo@1" := 0]> ∅) (Scripted.with_object []))).
    vm_compute; reflexivity.
  - apply (proj2 (resolve_identity (kernel 1) Scripted.foo1 (Scripted.registries_only []))
             Scripted.Foo); vm_compute; reflexivity.
Defined.

(** ** [Kernel.create] *)

(** C3, as the code has it.  For an application object [obj] whose
    overrides against [klass] are [overrides]: [create] sends exactly one
    request, a [CreateRequest] with [klass.__jsii_type__], the constructor
    arguments ([[]] when none are given) and [overrides]; it assigns the
    reference the provider answers to [obj.__jsii_ref__] and returns it.
    The Reference Map is as it was: [create] does not register [obj]. *)
Theorem create_binds_reference {P} `{BaseKernel P} (klass : pyclass) (obj : loc)
    (args : option (list value)) (s : state P) (o : pyinst)
    (overrides : list Override) (r : ObjRef) (p' : P) :
  heap s !! obj = Some o ->
  _get_overides klass (inst_class o) = Ok overrides ->
  provider_create (__jsii_type__ klass) (default [] args) overrides (provider s) = (Ok r, p') ->
  create klass obj args s =
  (Ok r,
   State p'
     (sent s ++ [Exchange (CreateRequest (__jsii_type__ klass) (default [] args) overrides) None])
     (<[obj := PyInst (inst_class o) (Some r)]> (heap s))
     (_types s) (_data_types s) (_refs s)).
Proof.
  intros Ho Hov Hp. rewrite create_run.
  erewrite bind_ok.
  2:{ unfold type_of, gets, lift, round_trip, ret, bind. simpl.
      rewrite Ho. simpl. rewrite Hov, Hp. reflexivity. }
  by erewrite assign_run.
Qed.

Lemma create_binds_reference_witness :
  create Scripted.Foo 0 None (Scripted.with_object [Ok (VRef Scripted.foo1)]) =
  (Ok Scripted.foo1,
   State []
     [Exchange
        (CreateRequest "Foo" []
           [mkOverride (Some "hello") None (Some "hello");
            mkOverride None (Some "bar") (Some "bar")]) None]
     [PyInst Scripted.Sub (Some Scripted.foo1)]
     (_types (Scripted.registries_only [])) (_data_types (Scripted.registries_only []))
     ∅).
Proof.
  apply (create_binds_reference Scripted.Foo 0 None
           (Scripted.with_object [Ok (VRef Scripted.foo1)])
           (PyInst Scripted.Sub None)); vm_compute; reflexivity.
Defined.

(** C3 as stated fails: after [create] has bound ["Foo@1"] to the object,
    the Reference Map has no entry for ["Foo@1"]. *)
Lemma create_does_not_register :
  (create Scripted.Foo 0 None (Scripted.with_object [Ok (VRef Scripted.foo1)])).1
    = Ok Scripted.foo1 ∧
  _refs (create Scripted.Foo 0 None (Scripted.with_object [Ok (VRef Scripted.foo1)])).2
    !! ref Scripted.foo1 = None.
Proof. split; vm_compute; reflexivity. Qed.

(** ** Provider failures *)



(** ** [_recursize_dereference] *)

Lemma recursize_dereference_dict {P} (k : kernel_handle P) items :
  _recursize_dereference k (VDict items) =
  (out <- dict_comprehension k items [] ;; ret (VDict out)).
Proof. reflexivity. Qed.

Lemma dict_comprehension_cons {P} (k : kernel_handle P) ky v items out :
  dict_comprehension k ((ky, v) :: items) out =
  (v' <- _recursize_dereference k v ;; dict_comprehension k items (dict_set ky v' out)).
Proof. reflexivity. Qed.

Lemma forallb_Forall {A} (f : A -> bool) (l : list A) :
  forallb f l = true ↔ Forall (λ x, f x = true) l.
Proof.
  induction l as [|x l IH]; simpl; [by split; [constructor|]|].
  rewrite andb_true_iff, IH, Forall_cons. done.
Qed.

Lemma dict_set_fresh ky v (d : list (key * value)) :
  ky ∉ d.*1 -> dict_set ky v d = d ++ [(ky, v)].
Proof.
  induction d as [|[k' v'] d IH]; simpl; [done|].
  rewrite not_elem_of_cons. intros [Hne Hnot].
  rewrite decide_False by done. by rewrite IH.
Qed.

Lemma dict_set_keys ky v (d : list (key * value)) k' :
  k' ∈ (dict_set ky v d).*1 ↔ k' = ky ∨ k' ∈ d.*1.
Proof.
  induction d as [|[k0 v0] d IH]; simpl.
  - rewrite list_elem_of_singleton, elem_of_nil. naive_solver.
  - case_decide; subst; simpl; rewrite !elem_of_cons, ?IH; naive_solver.
Qed.

Lemma dict_set_Forall (Q : value -> Prop) ky v (d : list (key * value)) :
  Q v -> Forall (λ kv, Q kv.2) d -> Forall (λ kv, Q kv.2) (dict_set ky v d).
Proof.
  intros Hv. induction 1 as [|[k0 v0] d Hx Hd IH]; simpl.
  - by repeat constructor.
  - case_decide; constructor; auto.
Qed.

Section dereferenced_results.
Context {P : Type} (k : kernel_handle P).
Hypothesis k_dereferenced :
  ∀ obj name s v s', k obj name s = (Ok v, s') -> dereferenced v = true.

Lemma resolve_fields_dereferenced r names inst s out s' :
  resolve_fields k r names inst s = (Ok out, s') ->
  Forall (λ kv, dereferenced kv.2 = true) inst ->
  Forall (λ kv, dereferenced kv.2 = true) out.
Proof.
  revert inst s. induction names as [|name names IH]; intros inst s; simpl.
  - by intros [= <- <-].
  - intros Hrun Hinst. bind_success Hrun.
    eapply IH; [exact Hk|]. apply (dict_set_Forall (λ v, dereferenced v = true)); eauto.
Qed.

Lemma resolve_dereferenced r s v s' :
  resolve k r s = (Ok v, s') -> dereferenced v = true.
Proof.
  unfold resolve. intros Hrun.
  bind_success Hrun. injection Hm as <- <-.
  destruct (_ !! ref r); [by injection Hk as <- <-|].
  bind_success Hk. injection Hm as <- <-.
  bind_success Hk0. injection Hm as <- <-.
  destruct (_ !! _) as [klass|].
  - bind_success Hk. bind_success Hk0.
    bind_success Hk. by injection Hk0 as <- <-.
  - destruct (_ !! _) as [dt|]; [|done].
    bind_success Hk. injection Hk0 as <- <-. simpl.
    apply forallb_Forall. eapply resolve_fields_dereferenced; [exact Hm|constructor].
Qed.

Lemma dict_comprehension_dereferenced items :
  Forall (λ kv, ∀ s v s',
            _recursize_dereference k kv.2 s = (Ok v, s') -> dereferenced v = true) items ->
  ∀ out0 s out s',
    dict_comprehension k items out0 s = (Ok out, s') ->
    Forall (λ kv, dereferenced kv.2 = true) out0 ->
    Forall (λ kv, dereferenced kv.2 = true) out.
Proof.
  induction 1 as [|[ky v] items Hv _ IH]; intros out0 s out s'.
  - by intros [= <- <-].
  - rewrite dict_comprehension_cons. intros Hrun Hout0.
    bind_success Hrun.
    eapply IH; [exact Hk|]. apply (dict_set_Forall (λ v, dereferenced v = true)); eauto.
Qed.

Lemma recursize_dereference_dereferenced d s v s' :
  _recursize_dereference k d s = (Ok v, s') -> dereferenced v = true.
Proof.
  revert s v s'.
  induction d as [c|r|l|xs _|items IH] using value_nested_ind; intros s v s'.
  - by intros [= <- <-].
  - apply resolve_dereferenced.
  - by intros [= <- <-].
  - by intros [= <- <-].
  - rewrite recursize_dereference_dict. intros Hrun.
    bind_success Hrun. injection Hk as <- <-. simpl.
    apply forallb_Forall.
    eapply dict_comprehension_dereferenced; [exact IH|exact Hm|constructor].
Qed.
End dereferenced_results.

Lemma get_dereferenced {P} `{BaseKernel P} depth obj property s v s' :
  get depth obj property s = (Ok v, s') -> dereferenced v = true.
Proof.
  revert obj property s v s'.
  induction depth as [|depth IH]; intros obj property s v s'; simpl; [done|].
  unfold _dereferenced. intros Hrun. bind_success Hrun.
  eapply recursize_dereference_dereferenced; [exact IH|exact Hk].
Qed.

(** C2, as the code has it.  [_recursize_dereference] goes through
    mappings and nothing else.  What a value-returning operation returns has
    no marker at the top nor, through mappings nested to any depth, as the
    value of a mapping ([dereferenced]).  A scalar is returned as it is, and
    so is a sequence: markers inside a sequence are not resolved. *)
Theorem dereference_mappings_only {P} `{BaseKernel P} (depth : nat) (s : state P) :
  (∀ obj property v s', get depth obj property s = (Ok v, s') -> dereferenced v = true) ∧
  (∀ klass property v s', sget depth klass property s = (Ok v, s') -> dereferenced v = true) ∧
  (∀ obj meth args v s', invoke depth obj meth args s = (Ok v, s') -> dereferenced v = true) ∧
  (∀ klass meth args v s', sinvoke depth klass meth args s = (Ok v, s') -> dereferenced v = true) ∧
  (∀ c, _recursize_dereference (kernel depth) (VScalar c) s = (Ok (VScalar c), s)) ∧
  (∀ xs, _recursize_dereference (kernel depth) (VList xs) s = (Ok (VList xs), s)).
Proof.
  repeat split_and; try done.
  - intros *. apply get_dereferenced.
  - intros * Hrun. unfold sget, _dereferenced in Hrun. bind_success Hrun.
    eapply recursize_dereference_dereferenced; [|exact Hk].
    intros *. apply get_dereferenced.
  - intros * Hrun. unfold invoke, _dereferenced in Hrun. bind_success Hrun.
    eapply recursize_dereference_dereferenced; [|exact Hk].
    intros *. apply get_dereferenced.
  - intros * Hrun. unfold sinvoke, _dereferenced in Hrun. bind_success Hrun.
    eapply recursize_dereference_dereferenced; [|exact Hk].
    intros *. apply get_dereferenced.
Qed.

Lemma dereference_mappings_only_witness :
  dereferenced
    (VDict [(KScalar (SStr "a"), VInst 0); (KScalar (SStr "b"), VList [VRef Scripted.foo1])])
  = true.
Proof.
  eapply (proj1 (dereference_mappings_only 1
                   (Scripted.registries_only
                      [Ok (VDict [(KScalar (SStr "a"), VRef Scripted.foo1);
                                  (KScalar (SStr "b"), VList [VRef Scripted.foo1])])]))
            (RFake (FakeReference Scripted.foo1)) "items").
  vm_compute; reflexivity.
Defined.

(** C2 as stated fails: [get] answers a mapping whose value under ["b"] is
    a sequence holding the marker ["Foo@1"]; the marker under ["a"] is
    resolved, the one in the sequence is returned as it came. *)
Lemma dereference_leaves_sequence_markers :
  (get 1 (RFake (FakeReference Scripted.foo1)) "items"
     (Scripted.registries_only
        [Ok (VDict [(KScalar (SStr "a"), VRef Scripted.foo1);
                    (KScalar (SStr "b"), VList [VRef Scripted.foo1])])])).1
  = Ok (VDict [(KScalar (SStr "a"), VInst 0);
               (KScalar (SStr "b"), VList [VRef Scripted.foo1])]) ∧
  contains_marker
    (VDict [(KScalar (SStr "a"), VInst 0);
            (KScalar (SStr "b"), VList [VRef Scripted.foo1])]) = true.
Proof. split; vm_compute; reflexivity. Qed.

Lemma dict_comprehension_items {P} (k : kernel_handle P) items :
  ∀ out0 s out s',
    NoDup (out0.*1 ++ items.*1) ->
    dict_comprehension k items out0 s = (Ok out, s') ->
    ∃ new, out = out0 ++ new ∧ new.*1 = items.*1 ∧
      Forall2 (λ kv kv', ∃ s1 s2, _recursize_dereference k kv.2 s1 = (Ok kv'.2, s2))
        items new.
Proof.
  induction items as [|[ky v] items IH]; intros out0 s out s' Hnd.
  - intros [= <- <-]. exists []. by rewrite app_nil_r.
  - rewrite dict_comprehension_cons. intros Hrun. bind_success Hrun.
    simpl in Hnd. apply NoDup_app in Hnd as (Hout0 & Hdisj & Hitems).
    assert (ky ∉ out0.*1) as Hfresh.
    { intros Hin. apply (Hdisj _ Hin). by left. }
    rewrite dict_set_fresh in Hk by done.
    apply IH in Hk as (new & -> & Hkeys & Hvals).
    + exists ((ky, a) :: new). rewrite <- (assoc_L (++)).
      split; [done|]. split; [by rewrite fmap_cons, Hkeys|].
      constructor; [|done]. simpl. eauto.
    + rewrite fmap_app. simpl. rewrite <- (assoc_L (++)). simpl.
      apply NoDup_app. split; [done|]. split; [|done].
      intros x Hx. apply Hdisj in Hx. done.
Qed.

Lemma dict_comprehension_app {P} (k : kernel_handle P) items1 items2 :
  ∀ out0 s,
    dict_comprehension k (items1 ++ items2) out0 s =
    (out1 <- dict_comprehension k items1 out0 ;; dict_comprehension k items2 out1) s.
Proof.
  induction items1 as [|[ky v] items1 IH]; intros out0 s; [done|].
  rewrite <- app_comm_cons, !dict_comprehension_cons. unfold bind in *.
  destruct (_recursize_dereference k v s) as [[v'|e] s1]; [|done]. apply IH.
Qed.

(** With distinct keys the [dict] filled so far only grows at its end, so
    the comprehension over the remaining items does not depend on it. *)
Lemma dict_comprehension_from_empty {P} (k : kernel_handle P) items :
  ∀ out0 s,
    NoDup (out0.*1 ++ items.*1) ->
    dict_comprehension k items out0 s =
    (new <- dict_comprehension k items [] ;; ret (out0 ++ new)) s.
Proof.
  induction items as [|[ky v] items IH]; intros out0 s Hnd.
  - unfold bind, ret. simpl. by rewrite app_nil_r.
  - rewrite !dict_comprehension_cons. unfold bind at 1 2 3.
    simpl.
    destruct (_recursize_dereference k v s) as [[v'|e] s1]; [|done].
    pose proof Hnd as (_ & Hdisj & [Hky Hitems]%NoDup_cons)%NoDup_app.
    rewrite dict_set_fresh.
    2:{ intros Hin. apply (Hdisj _ Hin). by left. }
    rewrite IH by by rewrite fmap_app, <- (assoc_L (++)).
    simpl dict_set. rewrite (IH [(ky, v')]).
    2:{ simpl. by apply NoDup_cons. }
    unfold bind, ret.
    destruct (dict_comprehension k items [] s1) as [[new|e] s2]; [|done].
    by rewrite <- (assoc_L (++)).
Qed.

(** C9. A mapping (a [dict]: its keys are distinct) that
    [_recursize_dereference] returns from: the result is a mapping with the
    same keys in the same order, so a key that is a marker comes back as
    that marker.  Where the value of an item was a marker, the run is the
    dereferencing of the items before it, then [resolve_reference] of the
    marker in the state these left, then the dereferencing of the items
    after it in the state the resolution left; the value in the result, at
    the item's position and under its key, is what that resolution
    returned, and it is not a marker. *)
Theorem dereference_keeps_keys {P} `{BaseKernel P} (depth : nat)
    (items : list (key * value)) (s s' : state P) (v : value) :
  NoDup items.*1 ->
  _recursize_dereference (kernel depth) (VDict items) s = (Ok v, s') ->
  ∃ out,
    v = VDict out ∧ out.*1 = items.*1 ∧
    (∀ i r v0, items !! i = Some (KRef r, v0) -> ∃ v', out !! i = Some (KRef r, v')) ∧
    (∀ before ky r after, items = before ++ (ky, VRef r) :: after ->
       ∃ before' v' after' t1 t2,
         out = before' ++ (ky, v') :: after' ∧
         length before' = length before ∧
         _recursize_dereference (kernel depth) (VDict before) s = (Ok (VDict before'), t1) ∧
         resolve_reference (kernel depth) r t1 = (Ok v', t2) ∧
         _recursize_dereference (kernel depth) (VDict after) t2 = (Ok (VDict after'), s') ∧
         (∀ r', v' ≠ VRef r')).
Proof.
  intros Hnd. rewrite recursize_dereference_dict. intros Hrun.
  apply bind_inv in Hrun as [(out & t & Hrun & Hret) | (? & _ & [=])].
  injection Hret as <- <-.
  pose proof Hrun as (new & Hout & Hkeys & Hvals)%dict_comprehension_items; [|done].
  simpl in Hout. subst new.
  exists out. split; [done|]. split; [done|]. split.
  - intros i r v0 Hi.
    destruct (Forall2_lookup_l _ _ _ _ _ Hvals Hi) as ([ky' v'] & Hi' & _).
    assert (out.*1 !! i = items.*1 !! i) as Hki by by rewrite Hkeys.
    rewrite !list_lookup_fmap, Hi, Hi' in Hki. injection Hki as ->. eauto.
  - intros before ky r after ->. clear Hkeys Hvals.
    rewrite fmap_app, fmap_cons in Hnd.
    pose proof Hnd as (Hbefore & Hdisj & [Hky Hafter]%NoDup_cons)%NoDup_app.
    rewrite dict_comprehension_app in Hrun.
    apply bind_inv in Hrun as [(before' & t1 & Hb & Hrest) | (? & _ & [=])].
    pose proof Hb as (new & Hbn & Hbkeys & _)%dict_comprehension_items; [|exact Hbefore].
    simpl in Hbn. subst new.
    rewrite dict_comprehension_cons in Hrest.
    apply bind_inv in Hrest as [(v' & t2 & Hres & Hrest) | (? & _ & [=])].
    simpl in Hres.
    rewrite dict_set_fresh in Hrest.
    2:{ rewrite Hbkeys. intros Hin. apply (Hdisj _ Hin). by left. }
    rewrite dict_comprehension_from_empty in Hrest.
    2:{ rewrite fmap_app, Hbkeys, <- (assoc_L (++)). exact Hnd. }
    apply bind_inv in Hrest as [(after' & t3 & Ha & Hret) | (? & _ & [=])].
    injection Hret as <- <-.
    exists before', v', after', t1, t2. split_and!.
    + by rewrite <- (assoc_L (++)).
    + by rewrite <- (length_fmap fst before'), Hbkeys, length_fmap.
    + rewrite recursize_dereference_dict. by erewrite bind_ok.
    + exact Hres.
    + rewrite recursize_dereference_dict. by erewrite bind_ok.
    + intros r' ->. unfold resolve_reference in Hres.
      eapply resolve_dereferenced in Hres; [done|]. intros *. apply get_dereferenced.
Qed.

Lemma dereference_keeps_keys_witness :
  ∃ out before' v' after' t1 t2,
    VDict [(KRef Scripted.foo1, VInst 0)] = VDict out ∧
    out.*1 = [KRef Scripted.foo1] ∧
    out = before' ++ (KRef Scripted.foo1, v') :: after' ∧
    _recursize_dereference (kernel 1) (VDict []) (Scripted.registries_only [])
      = (Ok (VDict before'), t1) ∧
    resolve_reference (kernel 1) Scripted.foo1 t1 = (Ok v', t2).
Proof.
  destruct (dereference_keeps_keys 1 [(KRef Scripted.foo1, VRef Scripted.foo1)]
              (Scripted.registries_only [])
              (State [] [] [PyInst Scripted.Foo (Some Scripted.foo1)]
                 (_types (Scripted.registries_only []))
                 (_data_types (Scripted.registries_only [])) ∅)
              (VDict [(KRef Scripted.foo1, VInst 0)]))
    as (out & Hv & Hkeys & _ & Hvalue).
  - repeat constructor. apply not_elem_of_nil.
  - vm_compute; reflexivity.
  - destruct (Hvalue [] (KRef Scripted.foo1) Scripted.foo1 [] eq_refl)
      as (before' & v' & after' & t1 & t2 & Hout & _ & Hbefore & Hres & _).
    exists out, before', v', after', t1, t2. repeat split; assumption.
Defined.

(** ** [_get_overides] *)

Lemma override_member_cases klass name item overrides :
  override_member klass name item overrides =
  if member_lacks_accessor klass (name, item)
  then Raise (AttributeError "fget")
  else Ok (overrides ++ override_of klass (name, item)).
Proof.
  unfold override_member, member_lacks_accessor, override_of, isfunction, isdatadescriptor.
  simpl. destruct (getattr klass name) as [original|]; simpl.
  - destruct (kind item), (__jsii_name__ original), (fget original) as [getter|];
      simpl; rewrite ?app_nil_r; try done;
      by destruct (__jsii_name__ getter); rewrite ?app_nil_r.
  - by rewrite andb_false_r, app_nil_r.
Qed.

Lemma override_members_cases klass items overrides :
  override_members klass items overrides =
  if existsb (member_lacks_accessor klass) items
  then Raise (AttributeError "fget")
  else Ok (overrides ++ (items ≫= override_of klass)).
Proof.
  revert overrides. induction items as [|[name item] items IH]; intros overrides.
  - simpl. by rewrite app_nil_r.
  - rewrite bind_cons. cbn [override_members existsb].
    rewrite override_member_cases.
    destruct (member_lacks_accessor klass (name, item)); cbn [orb]; [done|].
    rewrite IH. destruct (existsb _ items); [done|].
    by rewrite (assoc_L (++)).
Qed.

Lemma override_mro_cases klass classes overrides :
  override_mro klass classes overrides =
  if existsb (λ c, existsb (member_lacks_accessor klass) (__dict__ c))
       (chain_below klass classes)
  then Raise (AttributeError "fget")
  else Ok (overrides ++ (chain_below klass classes ≫= λ c, __dict__ c ≫= override_of klass)).
Proof.
  revert overrides. induction classes as [|c classes IH]; intros overrides.
  - simpl. by rewrite app_nil_r.
  - cbn [override_mro chain_below].
    destruct (class_is c klass); [simpl; by rewrite app_nil_r|].
    rewrite bind_cons. cbn [existsb].
    rewrite override_members_cases.
    destruct (existsb _ (__dict__ c)); cbn [orb]; [done|].
    rewrite IH. destruct (existsb _ (chain_below klass classes)); [done|].
    by rewrite (assoc_L (++)).
Qed.

Lemma get_overides_cases klass type_obj :
  _get_overides klass type_obj =
  if accessor_missing klass type_obj
  then Raise (AttributeError "fget")
  else Ok (overrides_spec klass type_obj).
Proof. unfold _get_overides. by rewrite override_mro_cases. Qed.

Lemma existsb_elem_of {A} (f : A -> bool) (l : list A) :
  existsb f l = true ↔ ∃ x, x ∈ l ∧ f x = true.
Proof.
  rewrite existsb_exists. split; intros (x & Hx & Hf); exists x;
    by rewrite ?list_elem_of_In in *.
Qed.

Lemma member_lacks_accessor_spec klass name item :
  member_lacks_accessor klass (name, item) = true ↔
  kind item = DataDescriptor ∧
  ∃ original, getattr klass name = Some original ∧ fget original = None.
Proof.
  unfold member_lacks_accessor, isdatadescriptor. simpl.
  rewrite andb_true_iff. split.
  - intros [Hk Hg]. split; [by destruct (kind item)|].
    destruct (getattr klass name) as [original|]; [|done].
    exists original. by destruct (fget original).
  - intros [-> (original & -> & ->)]. done.
Qed.

Lemma override_of_spec klass name item o :
  o ∈ override_of klass (name, item) ↔
  ∃ original remote,
    getattr klass name = Some original ∧
    ((kind item = Function ∧ __jsii_name__ original = Some remote ∧
      o = mkOverride (Some remote) None (Some name)) ∨
     (kind item = DataDescriptor ∧ fget original ≫= __jsii_name__ = Some remote ∧
      o = mkOverride None (Some remote) (Some name))).
Proof.
  unfold override_of. simpl. split.
  - destruct (getattr klass name) as [original|]; [|by intros ?%elem_of_nil].
    destruct (kind item) eqn:Hkind.
    + destruct (__jsii_name__ original) as [remote|] eqn:Hn; [|by intros ?%elem_of_nil].
      intros ->%list_elem_of_singleton. exists original, remote. naive_solver.
    + destruct (fget original ≫= __jsii_name__) as [remote|] eqn:Hn;
        [|by intros ?%elem_of_nil].
      intros ->%list_elem_of_singleton. exists original, remote. naive_solver.
    + by intros ?%elem_of_nil.
  - intros (original & remote & -> & [(-> & -> & ->) | (-> & -> & ->)]);
      by apply list_elem_of_singleton.
Qed.

(** C5. [_get_overides] inspects the classes of the MRO of [type(obj)]
    that come before the declared class ([chain_below]) and, provided no
    data descriptor among their members meets a declared member without
    [fget], returns one Override per member found remote-bound, in MRO and
    definition order ([overrides_spec]); whenever it returns, that list is
    what it returns.  An Override is in that list exactly when some member
    [name] of an inspected class has a same-named member [original] on the
    declared class and either the member is a function and [original]
    carries [__jsii_name__] (a method Override), or the member is a data
    descriptor and [original.fget] carries [__jsii_name__] (a property
    Override); its cookie is [name] and its remote name that
    [__jsii_name__].  A name whose declared member carries no
    [__jsii_name__], neither itself nor on its [fget], is the cookie of no
    Override. *)
Theorem get_overides_spec (klass type_obj : pyclass) :
  (accessor_missing klass type_obj = false ->
     _get_overides klass type_obj = Ok (overrides_spec klass type_obj)) ∧
  (∀ overrides, _get_overides klass type_obj = Ok overrides ->
     overrides = overrides_spec klass type_obj) ∧
  (∀ o, o ∈ overrides_spec klass type_obj ↔
     ∃ c name item original remote,
       c ∈ chain_below klass (mro type_obj) ∧
       (name, item) ∈ __dict__ c ∧
       getattr klass name = Some original ∧
       ((kind item = Function ∧ __jsii_name__ original = Some remote ∧
         o = mkOverride (Some remote) None (Some name)) ∨
        (kind item = DataDescriptor ∧ fget original ≫= __jsii_name__ = Some remote ∧
         o = mkOverride None (Some remote) (Some name)))) ∧
  (∀ name original o,
     getattr klass name = Some original ->
     __jsii_name__ original = None ->
     fget original ≫= __jsii_name__ = None ->
     o ∈ overrides_spec klass type_obj -> cookie o ≠ Some name).
Proof.
  assert (∀ o, o ∈ overrides_spec klass type_obj ↔
     ∃ c name item original remote,
       c ∈ chain_below klass (mro type_obj) ∧
       (name, item) ∈ __dict__ c ∧
       getattr klass name = Some original ∧
       ((kind item = Function ∧ __jsii_name__ original = Some remote ∧
         o = mkOverride (Some remote) None (Some name)) ∨
        (kind item = DataDescriptor ∧ fget original ≫= __jsii_name__ = Some remote ∧
         o = mkOverride None (Some remote) (Some name)))) as Hmem.
  { intros o. unfold overrides_spec. rewrite list_elem_of_bind. split.
    - intros (c & (m & Ho & Hm)%list_elem_of_bind & Hc). destruct m as [name item].
      apply override_of_spec in Ho as (original & remote & Hg & Hcase).
      exists c, name, item, original, remote. done.
    - intros (c & name & item & original & remote & Hc & Hm & Hg & Hcase).
      exists c. split; [|done]. apply list_elem_of_bind.
      exists (name, item). split; [|done]. apply override_of_spec. eauto. }
  split_and!.
  - intros Hok. by rewrite get_overides_cases, Hok.
  - intros overrides. rewrite get_overides_cases.
    destruct (accessor_missing klass type_obj); [done|]. by intros [= <-].
  - exact Hmem.
  - intros name original o Hg Hn Hf
      (c & name' & item & original' & remote & _ & _ & Hg' & Hcase)%Hmem Hcookie.
    destruct Hcase as [(_ & Hr & ->) | (_ & Hr & ->)];
      simpl in Hcookie; injection Hcookie as ->; congruence.
Qed.

Lemma get_overides_spec_witness :
  _get_overides Scripted.Foo Scripted.Sub =
  Ok [mkOverride (Some "hello") None (Some "hello");
      mkOverride None (Some "bar") (Some "bar")].
Proof.
  apply (proj1 (get_overides_spec Scripted.Foo Scripted.Sub)).
  vm_compute; reflexivity.
Defined.

(** C10. [accessor_missing] holds exactly when a class before the
    declared class in the MRO of [type(obj)] defines a data descriptor under
    a name whose attribute on the declared class has no [fget].  Then
    [_get_overides] raises [AttributeError], and so does [create], before
    any request is sent and with the state as it was; otherwise
    [_get_overides] returns. *)
Theorem get_overides_accessor_missing {P} `{BaseKernel P} (klass type_obj : pyclass) :
  (accessor_missing klass type_obj = true ↔
     ∃ c name item original,
       c ∈ chain_below klass (mro type_obj) ∧
       (name, item) ∈ __dict__ c ∧
       kind item = DataDescriptor ∧
       getattr klass name = Some original ∧
       fget original = None) ∧
  (accessor_missing klass type_obj = true ->
     _get_overides klass type_obj = Raise (AttributeError "fget") ∧
     ∀ (obj : loc) args (s : state P) o,
       heap s !! obj = Some o -> inst_class o = type_obj ->
       create klass obj args s = (Raise (AttributeError "fget"), s)) ∧
  (accessor_missing klass type_obj = false ->
     ∃ overrides, _get_overides klass type_obj = Ok overrides).
Proof.
  split_and!.
  - unfold accessor_missing. rewrite existsb_elem_of. split.
    + intros (c & Hc & ([name item] & Hm & Hbad)%existsb_elem_of).
      apply member_lacks_accessor_spec in Hbad as (Hk & original & Hg & Hf).
      by exists c, name, item, original.
    + intros (c & name & item & original & Hc & Hm & Hk & Hg & Hf).
      exists c. split; [done|]. apply existsb_elem_of.
      exists (name, item). split; [done|]. apply member_lacks_accessor_spec. eauto.
  - intros Hbad.
    assert (_get_overides klass type_obj = Raise (AttributeError "fget")) as Hraise
      by by rewrite get_overides_cases, Hbad.
    split; [done|]. intros obj args s o Ho <-.
    unfold create, type_of, gets, lift, ret, bind. simpl. by rewrite Ho, Hraise.
  - intros Hok. rewrite get_overides_cases, Hok. eauto.
Qed.

Lemma get_overides_accessor_missing_witness :
  _get_overides Scripted.Foo Scripted.Mixed = Raise (AttributeError "fget") ∧
  create Scripted.Foo 0 None
    (set_heap [PyInst Scripted.Mixed None] (Scripted.registries_only []))
  = (Raise (AttributeError "fget"),
     set_heap [PyInst Scripted.Mixed None] (Scripted.registries_only [])) ∧
  _get_overides Scripted.Foo Scripted.Named = Raise (AttributeError "fget").
Proof.
  destruct (@get_overides_accessor_missing Scripted.script _ Scripted.Foo Scripted.Mixed)
    as (_ & Hraise & _).
  destruct Hraise as [Hov Hcreate]; [vm_compute; reflexivity|].
  split; [exact Hov|]. split.
  - apply (Hcreate 0 None _ (PyInst Scripted.Mixed None)); reflexivity.
  - apply (@get_overides_accessor_missing Scripted.script _ Scripted.Foo Scripted.Named).
    vm_compute; reflexivity.
Defined.

(** ** Data values *)

Section data_values.
Context {P : Type} `{BaseKernel P}.

(** A [get] through a fake reference that returns has first made the
    round trip for that property of that reference. *)
Lemma get_fake_sent depth r name (s : state P) v s' :
  get depth (RFake (FakeReference r)) name s = (Ok v, s') ->
  ∃ rest, sent s' = sent s ++ field_get r name :: rest.
Proof.
  destruct depth as [|depth]; [done|]. simpl. unfold _dereferenced.
  intros Hrun. bind_success Hrun.
  unfold getattr_jsii_ref, ret, round_trip, bind in Hm. simpl in Hm.
  destruct (provider_get r name (provider s)) as [[v0|e] p']; [|done].
  injection Hm as <- <-.
  destruct (transparent_recursize_dereference _ (transparent_get depth) _ _ _ _ Hk)
    as (_ & new & Hs & _).
  exists new. rewrite Hs. simpl. by rewrite <- (assoc_L (++)).
Qed.

(** The same [get] when the provider answers a plain value. *)
Lemma get_fake_plain depth r name (s : state P) v p' :
  provider_get r name (provider s) = (Ok v, p') ->
  plain v = true ->
  get (S depth) (RFake (FakeReference r)) name s =
  (Ok v, State p' (sent s ++ [field_get r name]) (heap s)
           (_types s) (_data_types s) (_refs s)).
Proof.
  intros Hp Hv. simpl.
  unfold _dereferenced, getattr_jsii_ref, ret, round_trip, bind. simpl.
  rewrite Hp. by destruct v.
Qed.

Lemma resolve_fields_keys (k : kernel_handle P) r names :
  ∀ inst s out s',
    resolve_fields k r names inst s = (Ok out, s') ->
    ∀ ky, ky ∈ out.*1 ↔ ky ∈ inst.*1 ∨ ∃ name, name ∈ names ∧ ky = field_key name.
Proof.
  induction names as [|name names IH]; intros inst s out s'; simpl.
  - intros [= <- <-] ky. split; [by left|].
    by intros [?|(name & ?%elem_of_nil & _)].
  - intros Hrun ky. bind_success Hrun.
    rewrite (IH _ _ _ _ Hk), dict_set_keys. split.
    + intros [[->|?]|(n & ? & ->)]; [right|by left|right].
      * exists name. split; [by left|done].
      * exists n. split; [by right|done].
    + intros [?|(n & [->|?]%elem_of_cons & ->)]; [by left; right|by left; left|].
      right. by exists n.
Qed.

Lemma resolve_fields_sent depth r names :
  ∀ inst (s : state P) out s',
    resolve_fields (kernel depth) r names inst s = (Ok out, s') ->
    ∃ new, sent s' = sent s ++ new ∧ ∀ name, name ∈ names -> field_get r name ∈ new.
Proof.
  induction names as [|name names IH]; intros inst s out s'; simpl.
  - intros [= <- <-]. exists []. split; [by rewrite app_nil_r|].
    by intros name ?%elem_of_nil.
  - intros Hrun. bind_success Hrun.
    apply get_fake_sent in Hm as (rest & Hs1).
    apply IH in Hk as (new & Hs' & Hnew).
    exists ((field_get r name :: rest) ++ new). split.
    + by rewrite Hs', Hs1, <- (assoc_L (++)).
    + intros n [->|Hn]%elem_of_cons.
      * apply elem_of_app. left. by left.
      * apply elem_of_app. right. auto.
Qed.

Lemma resolve_fields_plain depth r names :
  ∀ inst (s : state P) vals p',
    NoDup (inst.*1 ++ (field_key <$> names)) ->
    serve_fields r names (provider s) = Some (vals, p') ->
    resolve_fields (kernel (S depth)) r names inst s =
    (Ok (inst ++ zip (field_key <$> names) vals),
     State p' (sent s ++ (field_get r <$> names)) (heap s)
       (_types s) (_data_types s) (_refs s)).
Proof.
  induction names as [|name names IH]; intros inst s vals p' Hnd; simpl.
  - intros [= <- <-]. rewrite !app_nil_r. by destruct s.
  - destruct (provider_get r name (provider s)) as [[v|e] p1] eqn:Hp; [|done].
    destruct (plain v) eqn:Hv; [|done].
    destruct (serve_fields r names p1) as [[vs p2]|] eqn:Hrest; [|done].
    intros [= <- <-].
    unfold kernel. erewrite bind_ok by by apply get_fake_plain.
    pose proof Hnd as (Hinst & Hdisj & Hnames)%NoDup_app.
    rewrite dict_set_fresh.
    2:{ intros Hin. apply (Hdisj _ Hin). by left. }
    fold (kernel (S depth)). erewrite IH.
    + simpl. by rewrite <- !(assoc_L (++)).
    + by rewrite fmap_app, <- (assoc_L (++)).
    + exact Hrest.
Qed.
End data_values.

#[global] Instance field_key_inj : Inj (=) (=) field_key.
Proof. by intros a b [= ->]. Qed.

(** C6. A reference that the map does not hold and whose type name is
    registered in [_data_types] (and not in [_types], which is looked up
    first), with descriptor [dt].

    Whenever [resolve] returns, it returns a mapping whose keys are exactly
    the names declared in [dt.__annotations__]; for each of them the
    request [GetRequest(objref=r, property_=name)], which names nothing but
    the container's reference and the field, has gone to the provider and
    been answered; and the Reference Map is as it was.

    It does return when the provider answers the field requests, one after
    the other, with values that need no dereferencing: the result maps each
    declared field, in declaration order, to the value answered for it; the
    round trips made are exactly one [get] per field; nothing else in the
    state has changed, the Reference Map included. *)
Theorem resolve_data_type {P} `{BaseKernel P} (depth : nat) (r : ObjRef)
    (s : state P) (dt : data_type) :
  _refs s !! ref r = None ->
  _types s !! rsplit_at_head (ref r) = None ->
  _data_types s !! rsplit_at_head (ref r) = Some dt ->
  (∀ v s', resolve (kernel depth) r s = (Ok v, s') ->
     ∃ items new,
       v = VDict items ∧
       (∀ ky, ky ∈ items.*1 ↔
          ∃ name, name ∈ (__annotations__ dt).*1 ∧ ky = field_key name) ∧
       sent s' = sent s ++ new ∧
       (∀ name, name ∈ (__annotations__ dt).*1 -> field_get r name ∈ new) ∧
       _refs s' = _refs s) ∧
  (∀ vals p',
     NoDup (__annotations__ dt).*1 ->
     serve_fields r (__annotations__ dt).*1 (provider s) = Some (vals, p') ->
     resolve (kernel (S depth)) r s =
     (Ok (VDict (zip (field_key <$> (__annotations__ dt).*1) vals)),
      State p' (sent s ++ (field_get r <$> (__annotations__ dt).*1)) (heap s)
        (_types s) (_data_types s) (_refs s))).
Proof.
  intros Hr Ht Hd.
  assert (∀ k : kernel_handle P,
            resolve k r s =
            (inst <- resolve_fields k r (__annotations__ dt).*1 [] ;; ret (VDict inst)) s)
    as Hbranch.
  { intros k. unfold resolve. unfold gets at 1. unfold bind at 1. rewrite Hr.
    unfold gets. unfold bind at 1. unfold bind at 1. by rewrite Ht, Hd. }
  split.
  - intros v s' Hrun.
    destruct (transparent_resolve _ (transparent_kernel depth) _ _ _ _ Hrun)
      as ((Hrefs & _) & _).
    rewrite Hbranch in Hrun. bind_success Hrun. injection Hk as <- <-.
    destruct (resolve_fields_sent _ _ _ _ _ _ _ Hm) as (new & Hsent & Hnew).
    exists a, new. split_and!; try done.
    intros ky. rewrite (resolve_fields_keys _ _ _ _ _ _ _ Hm ky). split.
    + by intros [?%elem_of_nil|?].
    + by right.
  - intros vals p' Hnd Hserve. rewrite Hbranch.
    erewrite bind_ok; [reflexivity|].
    rewrite (resolve_fields_plain depth r _ [] s vals p'); [done| |done].
    simpl. by apply (NoDup_fmap_2 field_key).
Qed.

Lemma resolve_data_type_witness :
  resolve (kernel 1) Scripted.point1
    (Scripted.registries_only [Ok (VScalar (SInt 3)); Ok (VScalar (SInt 4))])
  = (Ok (VDict [(KScalar (SStr "x"), VScalar (SInt 3));
                (KScalar (SStr "y"), VScalar (SInt 4))]),
     State []
       [Exchange (GetRequest Scripted.point1 "x") None;
        Exchange (GetRequest Scripted.point1 "y") None]
       []
       (_types (Scripted.registries_only [])) (_data_types (Scripted.registries_only []))
       ∅).
Proof.
  apply (proj2 (resolve_data_type 0 Scripted.point1
                  (Scripted.registries_only [Ok (VScalar (SInt 3)); Ok (VScalar (SInt 4))])
                  Scripted.Point
                  ltac:(vm_compute; reflexivity)
                  ltac:(vm_compute; reflexivity)
                  ltac:(vm_compute; reflexivity))
           [VScalar (SInt 3); VScalar (SInt 4)] []).
  - vm_compute. repeat constructor; rewrite ?elem_of_cons, ?elem_of_nil; naive_solver.
  - vm_compute; reflexivity.
Defined.

(** * Further properties *)

(** ** The type name of a reference *)

Lemma before_last_at_None s : contains_at s = false -> before_last_at s = None.
Proof.
  induction s as [|c s IH]; simpl; [done|].
  intros [Hc Hs]%orb_false_elim. rewrite IH by done.
  apply bool_decide_eq_false in Hc. by rewrite decide_False.
Qed.

Lemma before_last_at_app fqn id :
  contains_at id = false -> before_last_at (fqn ++ String "@" id) = Some fqn.
Proof.
  intros Hid. induction fqn as [|c fqn IH]; simpl.
  - by rewrite before_last_at_None.
  - by rewrite IH.
Qed.

(** The type name of a reference is the text before its last ["@"], so a
    type name that itself contains ["@"] (a scoped package) is read whole:
    for an instance id without ["@"], [rsplit] gives back the type name the
    reference was built from.  A reference without any ["@"] is its own
    type name. *)
Theorem rsplit_at_head_type_name (fqn id : string) :
  contains_at id = false ->
  rsplit_at_head (fqn ++ "@" ++ id) = fqn ∧ rsplit_at_head id = id.
Proof.
  intros Hid. unfold rsplit_at_head.
  change (fqn +:+ "@" +:+ id) with (fqn +:+ String "@" id).
  by rewrite before_last_at_app, before_last_at_None.
Qed.

Lemma rsplit_at_head_type_name_witness :
  rsplit_at_head "@scope/lib.Foo@10001" = "@scope/lib.Foo" ∧
  rsplit_at_head "10001" = "10001".
Proof.
  apply (rsplit_at_head_type_name "@scope/lib.Foo" "10001"). reflexivity.
Defined.

(** ** [register] and [resolve] together *)

Lemma register_run {P} (l : loc) (r : ObjRef) (s : state P) (o : pyinst) :
  heap s !! l = Some o ->
  __jsii_ref__ o = Some r ->
  register l s = (Ok tt, set_refs (<[ref r := l]> (_refs s)) s).
Proof.
  intros Ho Hr. unfold register, getattr_jsii_ref, gets, modify, ret, bind. simpl.
  by rewrite Ho; simpl; rewrite Hr.
Qed.

(** [register] puts the instance under the text of its reference, whatever
    the map held there, so the next [resolve] of that reference returns this
    very instance, without a look at the registries. *)
Theorem register_then_resolve {P} (k : kernel_handle P) (l : loc) (r : ObjRef)
    (s : state P) (o : pyinst) :
  heap s !! l = Some o ->
  __jsii_ref__ o = Some r ->
  (register l ;;; resolve k r) s =
  (Ok (VInst l), set_refs (<[ref r := l]> (_refs s)) s).
Proof.
  intros Ho Hr.
  erewrite bind_ok by by eapply register_run.
  apply resolve_held. simpl. apply lookup_insert_eq.
Qed.

Lemma register_then_resolve_witness :
  (register 0 ;;; resolve (kernel 1) Scripted.nope1)
    (set_heap [PyInst Scripted.Sub (Some Scripted.nope1)] (Scripted.registries_only []))
  = (Ok (VInst 0),
     set_refs (<["Nope@1" := 0]> ∅)
       (set_heap [PyInst Scripted.Sub (Some Scripted.nope1)] (Scripted.registries_only []))).
Proof.
  apply (register_then_resolve (kernel 1) 0 Scripted.nope1
           (set_heap [PyInst Scripted.Sub (Some Scripted.nope1)]
              (Scripted.registries_only []))
           (PyInst Scripted.Sub (Some Scripted.nope1))); reflexivity.
Defined.

(** [register] reads [inst.__jsii_ref__] first: an instance that has none
    raises [AttributeError] and the map is not written. *)
Theorem register_unbound {P} (l : loc) (s : state P) (o : pyinst) :
  heap s !! l = Some o ->
  __jsii_ref__ o = None ->
  register l s = (Raise (AttributeError "__jsii_ref__"), s).
Proof.
  intros Ho Hr. unfold register, getattr_jsii_ref, gets, raise, bind. simpl.
  by rewrite Ho; simpl; rewrite Hr.
Qed.

Lemma register_unbound_witness :
  register 0 (Scripted.with_object [])
  = (Raise (AttributeError "__jsii_ref__"), Scripted.with_object ([] : Scripted.script)).
Proof.
  apply (register_unbound 0 (Scripted.with_object []) (PyInst Scripted.Sub None));
    reflexivity.
Defined.

(** No run of [resolve], whatever branch it takes and however it ends,
    writes to the Reference Map or to the registries or changes an object
    that existed; all it may do to the heap is append new objects (its own
    proxy, and those made while the fields of a data value are fetched). *)
Theorem resolve_never_writes {P} `{BaseKernel P} (depth : nat) (r : ObjRef)
    (s s' : state P) (res : result value) :
  resolve (kernel depth) r s = (res, s') ->
  _refs s' = _refs s ∧ _types s' = _types s ∧ _data_types s' = _data_types s ∧
  ∀ l o, heap s !! l = Some o -> heap s' !! l = Some o.
Proof.
  intros Hrun.
  destruct (transparent_resolve _ (transparent_kernel depth) _ _ _ _ Hrun)
    as ((Hrefs & Htypes & Hdts & Hheap) & _).
  split_and!; try done. intros l o Hl. by eapply prefix_lookup_Some.
Qed.

Lemma resolve_never_writes_witness :
  _refs (resolve (kernel 2) Scripted.point1
           (Scripted.registries_only
              [Ok (VRef Scripted.foo1); Raise (Exception "boom")])).2 = ∅.
Proof.
  eapply (resolve_never_writes 2 Scripted.point1
            (Scripted.registries_only [Ok (VRef Scripted.foo1); Raise (Exception "boom")])).
  apply surjective_pairing.
Defined.

(** [register_type] then [resolve]: once a concrete class is registered,
    an unseen reference carrying its [__jsii_type__] resolves to a new
    instance of that class, whatever was registered under the name before
    and whether or not a data type has the same name ([_types] is looked up
    first).  No request is sent. *)
Theorem register_type_then_resolve {P} (k : kernel_handle P) (klass : pyclass)
    (r : ObjRef) (s : state P) :
  isabstract klass = false ->
  rsplit_at_head (ref r) = __jsii_type__ klass ->
  _refs s !! ref r = None ->
  (register_type klass ;;; resolve k r) s =
  (Ok (VInst (length (heap s))),
   State (provider s) (sent s) (heap s ++ [PyInst klass (Some r)])
     (<[__jsii_type__ klass := klass]> (_types s)) (_data_types s) (_refs s)).
Proof.
  intros Hc Hfqn Hr. unfold register_type, modify. unfold bind at 1.
  rewrite (resolve_new_proxy k r _ klass klass); simpl; rewrite ?Hc; try done.
  rewrite Hfqn. apply lookup_insert_eq.
Qed.

Lemma register_type_then_resolve_witness :
  (register_type Scripted.Foo ;;; resolve (kernel 1) (mkObjRef "Foo@7"))
    (State ([] : Scripted.script) [] [] ∅ (<["Foo" := DataType "Foo" [("x", "int")]]> ∅) ∅)
  = (Ok (VInst 0),
     State [] [] [PyInst Scripted.Foo (Some (mkObjRef "Foo@7"))]
       (<["Foo" := Scripted.Foo]> ∅) (<["Foo" := DataType "Foo" [("x", "int")]]> ∅) ∅).
Proof.
  exact (register_type_then_resolve (kernel 1) Scripted.Foo (mkObjRef "Foo@7")
           (State ([] : Scripted.script) [] [] ∅
              (<["Foo" := DataType "Foo" [("x", "int")]]> ∅) ∅)
           eq_refl eq_refl eq_refl).
Defined.

(** An abstract class is never instantiated.  When the registered class is
    abstract and has no [__jsii_proxy_class__], [resolve] raises
    [AttributeError]; when the class the hook returns is abstract too,
    [__new__] raises [TypeError].  Either way nothing was allocated: the
    state is the state [resolve] was given. *)
Theorem resolve_abstract_errors {P} (k : kernel_handle P) (r : ObjRef) (s : state P)
    (klass : pyclass) :
  _refs s !! ref r = None ->
  _types s !! rsplit_at_head (ref r) = Some klass ->
  isabstract klass = true ->
  (__jsii_proxy_class__ klass = None ->
     resolve k r s = (Raise (AttributeError "__jsii_proxy_class__"), s)) ∧
  (∀ proxy, __jsii_proxy_class__ klass = Some proxy -> isabstract proxy = true ->
     resolve k r s = (Raise (TypeError "Can't instantiate abstract class"), s)).
Proof.
  intros Hr Ht Ha. split.
  - intros Hp. unfold resolve, gets, raise, bind. simpl.
    by rewrite Hr, Ht, Ha, Hp.
  - intros proxy Hp Hpa. unfold resolve, gets, ret, __new__, bind. simpl.
    by rewrite Hr, Ht, Ha, Hp, Hpa.
Qed.

Lemma resolve_abstract_errors_witness :
  resolve (kernel 1) (mkObjRef "Lonely@1")
    (State ([] : Scripted.script) [] []
       (<["Lonely" := Scripted.class_ "Lonely" "Lonely" [] [] true None]> ∅) ∅ ∅)
  = (Raise (AttributeError "__jsii_proxy_class__"),
     State [] [] [] (<["Lonely" := Scripted.class_ "Lonely" "Lonely" [] [] true None]> ∅) ∅ ∅).
Proof.
  apply (resolve_abstract_errors (kernel 1) (mkObjRef "Lonely@1")
           (State ([] : Scripted.script) [] []
              (<["Lonely" := Scripted.class_ "Lonely" "Lonely" [] [] true None]> ∅) ∅ ∅)
           (Scripted.class_ "Lonely" "Lonely" [] [] true None)); reflexivity.
Defined.

(** ** More on [_get_overides] *)

(** An object whose type is the declared class itself has no overrides: the
    loop over the MRO is left at its first class, before any member is
    looked at, so nothing can raise either. *)
Theorem get_overides_same_class (klass type_obj : pyclass) :
  cls_id type_obj = cls_id klass ->
  _get_overides klass type_obj = Ok [].
Proof.
  intros Hid. unfold _get_overides, mro. simpl.
  unfold class_is. by rewrite bool_decide_eq_true_2.
Qed.

Lemma get_overides_same_class_witness :
  _get_overides Scripted.Foo Scripted.Foo = Ok [].
Proof. apply (get_overides_same_class Scripted.Foo Scripted.Foo). reflexivity. Defined.

Lemma override_of_length klass m : (length (override_of klass m) ≤ 1)%nat.
Proof.
  unfold override_of. destruct (getattr klass m.1) as [original|]; simpl; [|lia].
  destruct (kind m.2); simpl; try lia.
  - destruct (__jsii_name__ original); simpl; lia.
  - destruct (fget original ≫= __jsii_name__); simpl; lia.
Qed.

Lemma overrides_length klass classes :
  (length (classes ≫= λ c, __dict__ c ≫= override_of klass) ≤ member_count classes)%nat.
Proof.
  unfold member_count. induction classes as [|c classes IH]; [done|].
  rewrite bind_cons, length_app. simpl.
  assert (length (__dict__ c ≫= override_of klass) ≤ length (__dict__ c))%nat; [|lia].
  induction (__dict__ c) as [|m ms IHm]; [done|].
  rewrite bind_cons, length_app. simpl.
  pose proof (override_of_length klass m). lia.
Qed.

Lemma overrides_spec_per_member klass classes :
  (classes ≫= λ c, __dict__ c ≫= override_of klass) =
  concat (override_of klass <$> (classes ≫= __dict__)).
Proof.
  induction classes as [|c classes IH]; [done|].
  rewrite !bind_cons, fmap_app, concat_app, <- IH. f_equal.
  induction (__dict__ c) as [|m ms IHm]; [done|].
  by rewrite bind_cons, fmap_cons, IHm.
Qed.

(** What [_get_overides] returns is well formed.  Every Override names in
    its cookie a member of one of the inspected classes and carries exactly
    one of [method] and [property_].  And there is at most one Override per
    member: the list splits, member by member in the order in which the
    members are inspected, into pieces that are empty or one Override with
    that member's name as cookie.  In particular it is no longer than the
    number of members inspected. *)
Theorem get_overides_well_formed (klass type_obj : pyclass) (overrides : list Override) :
  _get_overides klass type_obj = Ok overrides ->
  (∀ o, o ∈ overrides ->
     ∃ c name,
       c ∈ chain_below klass (mro type_obj) ∧ name ∈ (__dict__ c).*1 ∧
       cookie o = Some name ∧
       ((is_Some (method o) ∧ property_ o = None) ∨
        (method o = None ∧ is_Some (property_ o)))) ∧
  (∃ per : list (list Override),
     overrides = concat per ∧
     Forall2 (λ m os, (length os ≤ 1)%nat ∧ ∀ o, o ∈ os -> cookie o = Some m.1)
       (chain_below klass (mro type_obj) ≫= __dict__) per) ∧
  (length overrides ≤ member_count (chain_below klass (mro type_obj)))%nat.
Proof.
  rewrite get_overides_cases.
  destruct (accessor_missing klass type_obj); [done|]. intros [= <-]. split_and!.
  - intros o (c & (m & Ho & Hm)%list_elem_of_bind & Hc)%list_elem_of_bind.
    destruct m as [name item].
    apply override_of_spec in Ho as (original & remote & _ & Hcase).
    exists c, name. split; [done|]. split.
    { apply list_elem_of_fmap. by exists (name, item). }
    destruct Hcase as [(_ & _ & ->) | (_ & _ & ->)]; simpl; split; eauto.
  - exists (override_of klass <$> (chain_below klass (mro type_obj) ≫= __dict__)).
    split; [apply overrides_spec_per_member|].
    apply Forall2_fmap_r, Forall_Forall2_diag, Forall_forall.
    intros [name item] _. split; [apply override_of_length|].
    intros o (original & remote & _ & Hcase)%override_of_spec.
    by destruct Hcase as [(_ & _ & ->) | (_ & _ & ->)].
  - apply overrides_length.
Qed.

Lemma get_overides_well_formed_witness :
  (length [mkOverride (Some "hello") None (Some "hello");
           mkOverride None (Some "bar") (Some "bar")]
   ≤ member_count (chain_below Scripted.Foo (mro Scripted.Sub)))%nat.
Proof.
  apply (get_overides_well_formed Scripted.Foo Scripted.Sub). reflexivity.
Defined.

(** ** More on [_recursize_dereference] *)

Lemma dict_set_NoDup ky v (d : list (key * value)) :
  NoDup d.*1 -> NoDup (dict_set ky v d).*1.
Proof.
  induction d as [|[k0 v0] d IH]; simpl.
  - intros _. apply NoDup_singleton.
  - intros [Hk0 Hd]%NoDup_cons. case_decide; subst; simpl.
    + by apply NoDup_cons.
    + apply NoDup_cons. split; [|auto].
      rewrite dict_set_keys. naive_solver.
Qed.

Lemma VDict_settled (items : list (key * value)) :
  dereferenced (VDict items) = true ∧ keys_distinct (VDict items) = true ↔
  NoDup items.*1 ∧
  Forall (λ kv, dereferenced kv.2 = true ∧ keys_distinct kv.2 = true) items.
Proof.
  simpl. rewrite andb_true_iff, bool_decide_eq_true, !forallb_Forall, Forall_and.
  naive_solver.
Qed.

Lemma dict_set_settled ky v (d : list (key * value)) :
  dereferenced v = true ∧ keys_distinct v = true ->
  dereferenced (VDict d) = true ∧ keys_distinct (VDict d) = true ->
  dereferenced (VDict (dict_set ky v d)) = true ∧
  keys_distinct (VDict (dict_set ky v d)) = true.
Proof.
  rewrite !VDict_settled. intros Hv [Hnd Hd]. split; [by apply dict_set_NoDup|].
  by apply (dict_set_Forall (λ v, dereferenced v = true ∧ keys_distinct v = true)).
Qed.

Section settled_results.
Context {P : Type} (k : kernel_handle P).
Hypothesis k_settled :
  ∀ obj name s v s', k obj name s = (Ok v, s') ->
    dereferenced v = true ∧ keys_distinct v = true.

Lemma resolve_fields_settled r names inst s out s' :
  resolve_fields k r names inst s = (Ok out, s') ->
  dereferenced (VDict inst) = true ∧ keys_distinct (VDict inst) = true ->
  dereferenced (VDict out) = true ∧ keys_distinct (VDict out) = true.
Proof.
  revert inst s. induction names as [|name names IH]; intros inst s; simpl.
  - by intros [= <- <-].
  - intros Hrun Hinst. bind_success Hrun.
    eapply IH; [exact Hk|]. apply dict_set_settled; eauto.
Qed.

Lemma resolve_settled r s v s' :
  resolve k r s = (Ok v, s') -> dereferenced v = true ∧ keys_distinct v = true.
Proof.
  unfold resolve. intros Hrun.
  bind_success Hrun. injection Hm as <- <-.
  destruct (_ !! ref r); [by injection Hk as <- <-|].
  bind_success Hk. injection Hm as <- <-.
  bind_success Hk0. injection Hm as <- <-.
  destruct (_ !! _) as [klass|].
  - bind_success Hk. bind_success Hk0.
    bind_success Hk. by injection Hk0 as <- <-.
  - destruct (_ !! _) as [dt|]; [|done].
    bind_success Hk. injection Hk0 as <- <-.
    eapply resolve_fields_settled; [exact Hm|]. apply VDict_settled.
    split; constructor.
Qed.

Lemma dict_comprehension_settled items :
  Forall (λ kv, ∀ s v s',
            _recursize_dereference k kv.2 s = (Ok v, s') ->
            dereferenced v = true ∧ keys_distinct v = true) items ->
  ∀ out0 s out s',
    dict_comprehension k items out0 s = (Ok out, s') ->
    dereferenced (VDict out0) = true ∧ keys_distinct (VDict out0) = true ->
    dereferenced (VDict out) = true ∧ keys_distinct (VDict out) = true.
Proof.
  induction 1 as [|[ky v] items Hv _ IH]; intros out0 s out s'.
  - by intros [= <- <-].
  - rewrite dict_comprehension_cons. intros Hrun Hout0. bind_success Hrun.
    eapply IH; [exact Hk|]. apply dict_set_settled; eauto.
Qed.

Lemma recursize_dereference_settled d s v s' :
  _recursize_dereference k d s = (Ok v, s') ->
  dereferenced v = true ∧ keys_distinct v = true.
Proof.
  revert s v s'.
  induction d as [c|r|l|xs _|items IH] using value_nested_ind; intros s v s'.
  - by intros [= <- <-].
  - apply resolve_settled.
  - by intros [= <- <-].
  - by intros [= <- <-].
  - rewrite recursize_dereference_dict. intros Hrun.
    bind_success Hrun. injection Hk as <- <-.
    eapply dict_comprehension_settled; [exact IH|exact Hm|].
    apply VDict_settled. split; constructor.
Qed.
End settled_results.

Lemma get_settled {P} `{BaseKernel P} depth obj property s v s' :
  get depth obj property s = (Ok v, s') ->
  dereferenced v = true ∧ keys_distinct v = true.
Proof.
  revert obj property s v s'.
  induction depth as [|depth IH]; intros obj property s v s'; simpl; [done|].
  unfold _dereferenced. intros Hrun. bind_success Hrun.
  eapply recursize_dereference_settled; [exact IH|exact Hk].
Qed.

(** A value without markers in the positions that are visited comes back
    as it is and nothing happens. *)
Lemma recursize_dereference_fixed {P} (k : kernel_handle P) (v : value) :
  dereferenced v = true -> keys_distinct v = true ->
  ∀ s, _recursize_dereference k v s = (Ok v, s).
Proof.
  induction v as [c|r|l|xs _|items IH] using value_nested_ind; try done.
  intros Hd Hk s.
  destruct (proj1 (VDict_settled items) (conj Hd Hk)) as [Hnd Hitems].
  rewrite recursize_dereference_dict.
  assert (∀ out0 s0, NoDup (out0.*1 ++ items.*1) ->
            dict_comprehension k items out0 s0 = (Ok (out0 ++ items), s0)) as Hloop.
  { clear Hd Hk Hnd. induction items as [|[ky v] items IHitems]; intros out0 s0 Hnd'.
    - by rewrite app_nil_r.
    - apply Forall_cons in IH as [IHv IH]. apply Forall_cons in Hitems as [[Hv1 Hv2] Hitems].
      rewrite dict_comprehension_cons. erewrite bind_ok by by apply IHv.
      pose proof Hnd' as (_ & Hdisj & _)%NoDup_app.
      rewrite dict_set_fresh.
      2:{ intros Hin. apply (Hdisj _ Hin). by left. }
      rewrite IHitems; [by rewrite <- (assoc_L (++))|done|done|].
      by rewrite fmap_app, <- (assoc_L (++)). }
  erewrite bind_ok by by apply (Hloop [] s).
  done.
Qed.

(** Dereferencing is idempotent.  Whatever [_recursize_dereference]
    returns, and so whatever a value-returning operation returns,
    dereferencing it once more, in any state and with any kernel, returns
    the same value and does nothing: no object is created, no request is
    sent. *)
Theorem dereference_idempotent {P} `{BaseKernel P} (depth : nat) (d v : value)
    (s s' : state P) :
  _recursize_dereference (kernel depth) d s = (Ok v, s') ->
  ∀ (k : kernel_handle P) (t : state P), _recursize_dereference k v t = (Ok v, t).
Proof.
  intros Hrun k t.
  eapply recursize_dereference_settled in Hrun as [Hd Hk].
  - by apply recursize_dereference_fixed.
  - intros *. apply get_settled.
Qed.

Lemma dereference_idempotent_witness :
  _recursize_dereference (kernel 0)
    (VDict [(KScalar (SStr "a"), VInst 0);
            (KScalar (SStr "b"), VList [VRef Scripted.foo1])])
    (Scripted.registries_only [])
  = (Ok (VDict [(KScalar (SStr "a"), VInst 0);
                (KScalar (SStr "b"), VList [VRef Scripted.foo1])]),
     Scripted.registries_only []).
Proof.
  eapply (dereference_idempotent 1
            (VDict [(KScalar (SStr "a"), VRef Scripted.foo1);
                    (KScalar (SStr "b"), VList [VRef Scripted.foo1])])
            _ (Scripted.registries_only [])).
  vm_compute; reflexivity.
Defined.

(** One remote object, two local objects.  When the same unseen marker of
    a concrete object type is the value under two keys of one answer, each
    occurrence is resolved on its own, in the order of the items: the two
    values of the result are different objects, and the map still does not
    know the reference. *)
Theorem dereference_same_marker_twice {P} (k : kernel_handle P) (k1 k2 : key)
    (r : ObjRef) (s : state P) (klass : pyclass) :
  k1 ≠ k2 ->
  _refs s !! ref r = None ->
  _types s !! rsplit_at_head (ref r) = Some klass ->
  isabstract klass = false ->
  _recursize_dereference k (VDict [(k1, VRef r); (k2, VRef r)]) s =
  (Ok (VDict [(k1, VInst (length (heap s))); (k2, VInst (S (length (heap s))))]),
   State (provider s) (sent s)
     (heap s ++ [PyInst klass (Some r); PyInst klass (Some r)])
     (_types s) (_data_types s) (_refs s)).
Proof.
  intros Hne Hr Ht Hc.
  rewrite recursize_dereference_dict, dict_comprehension_cons.
  unfold bind at 1. unfold bind at 1. simpl _recursize_dereference.
  unfold resolve_reference.
  rewrite (resolve_new_proxy k r s klass klass) by by rewrite ?Hc.
  rewrite dict_comprehension_cons. unfold bind at 1. simpl _recursize_dereference.
  unfold resolve_reference.
  rewrite (resolve_new_proxy k r _ klass klass) by by rewrite ?Hc.
  simpl. rewrite decide_False by done. unfold ret.
  by rewrite length_app, Nat.add_1_r, <- (assoc_L (++)).
Qed.

Lemma dereference_same_marker_twice_witness :
  _recursize_dereference (kernel 1)
    (VDict [(KScalar (SStr "a"), VRef Scripted.foo1);
            (KScalar (SStr "b"), VRef Scripted.foo1)])
    (Scripted.registries_only [])
  = (Ok (VDict [(KScalar (SStr "a"), VInst 0); (KScalar (SStr "b"), VInst 1)]),
     State [] []
       [PyInst Scripted.Foo (Some Scripted.foo1); PyInst Scripted.Foo (Some Scripted.foo1)]
       (_types (Scripted.registries_only [])) (_data_types (Scripted.registries_only []))
       ∅).
Proof.
  apply (dereference_same_marker_twice (kernel 1) (KScalar (SStr "a")) (KScalar (SStr "b"))
           Scripted.foo1 (Scripted.registries_only []) Scripted.Foo);
    [discriminate|vm_compute; reflexivity..].
Defined.

(** ** The depth bound *)

Lemma resolve_branches {P} (k : kernel_handle P) (r : ObjRef) (s : state P) :
  resolve k r s =
  match _refs s !! ref r with
  | Some inst => (Ok (VInst inst), s)
  | None =>
      match _types s !! rsplit_at_head (ref r) with
      | Some klass =>
          (klass <- (if isabstract klass
                     then match __jsii_proxy_class__ klass with
                          | Some proxy => ret proxy
                          | None => raise (AttributeError "__jsii_proxy_class__")
                          end
                     else ret klass) ;;
           inst <- __new__ klass ;;
           setattr_jsii_ref inst r ;;;
           ret (VInst inst)) s
      | None =>
          match _data_types s !! rsplit_at_head (ref r) with
          | Some data_type =>
              (inst <- resolve_fields k r (__annotations__ data_type).*1 [] ;;
               ret (VDict inst)) s
          | None =>
              (Raise (ValueError ("Unknown type: " ++ rsplit_at_head (ref r))), s)
          end
      end
  end.
Proof.
  unfold resolve. unfold gets at 1. unfold bind at 1.
  destruct (_refs s !! ref r); [done|].
  unfold gets. unfold bind at 1. unfold bind at 1.
  destruct (_types s !! _); [done|]. by destruct (_data_types s !! _).
Qed.

Lemma not_recursion_error {A B} (e : exn) :
  (Raise e : result A) ≠ Raise RecursionError -> (Raise e : result B) ≠ Raise RecursionError.
Proof. intros Hne [= ->]. by apply Hne. Qed.

Section deeper.
Context {P : Type} (k1 k2 : kernel_handle P).
Hypothesis k_deeper :
  ∀ obj name s res s',
    k1 obj name s = (res, s') -> res ≠ Raise RecursionError -> k2 obj name s = (res, s').

Lemma resolve_fields_deeper r names :
  ∀ inst s res s',
    resolve_fields k1 r names inst s = (res, s') -> res ≠ Raise RecursionError ->
    resolve_fields k2 r names inst s = (res, s').
Proof.
  induction names as [|name names IH]; intros inst s res s'; simpl; [done|].
  intros Hrun Hres. bind_cases Hrun.
  - erewrite bind_ok by by apply k_deeper. by apply IH.
  - apply bind_raise, k_deeper; eauto using not_recursion_error.
Qed.

Lemma resolve_deeper r s res s' :
  resolve k1 r s = (res, s') -> res ≠ Raise RecursionError ->
  resolve k2 r s = (res, s').
Proof.
  rewrite !resolve_branches.
  destruct (_refs s !! ref r); [done|].
  destruct (_types s !! _); [done|].
  destruct (_data_types s !! _) as [dt|]; [|done].
  intros Hrun Hres. bind_cases Hrun.
  - erewrite bind_ok; [exact Hk|]. by apply resolve_fields_deeper.
  - apply bind_raise, resolve_fields_deeper; eauto using not_recursion_error.
Qed.

Lemma recursize_dereference_deeper d :
  ∀ s res s',
    _recursize_dereference k1 d s = (res, s') -> res ≠ Raise RecursionError ->
    _recursize_dereference k2 d s = (res, s').
Proof.
  induction d as [c|r|l|xs _|items IH] using value_nested_ind; intros s res s';
    try done.
  - apply resolve_deeper.
  - rewrite !recursize_dereference_dict.
    assert (∀ out0 t res0 t',
              dict_comprehension k1 items out0 t = (res0, t') ->
              res0 ≠ Raise RecursionError ->
              dict_comprehension k2 items out0 t = (res0, t')) as Hloop.
    { induction IH as [|[ky v] items Hv _ IHitems]; intros out0 t res0 t'; [done|].
      rewrite !dict_comprehension_cons. intros Hrun Hres. bind_cases Hrun.
      - erewrite bind_ok by by apply Hv. by apply IHitems.
      - apply bind_raise, Hv; eauto using not_recursion_error. }
    intros Hrun Hres. bind_cases Hrun.
    + erewrite bind_ok; [exact Hk|]. by apply Hloop.
    + apply bind_raise, Hloop; eauto using not_recursion_error.
Qed.
End deeper.

Lemma get_deeper {P} `{BaseKernel P} depth :
  ∀ obj property (s : state P) res s',
    get depth obj property s = (res, s') -> res ≠ Raise RecursionError ->
    get (S depth) obj property s = (res, s').
Proof.
  induction depth as [|depth IH]; intros obj property s res s'.
  - intros [= <- <-]. done.
  - intros Hrun Hres. change (get (S (S depth)) obj property) with
      (_dereferenced (get (S depth))
         (fun _ : unit =>
            objref <- getattr_jsii_ref obj ;;
            round_trip (GetRequest objref property) (provider_get objref property)) tt).
    simpl in Hrun. unfold _dereferenced in *. bind_cases Hrun.
    + erewrite bind_ok by exact Hm.
      eapply recursize_dereference_deeper; [exact IH|exact Hk|exact Hres].
    + by apply bind_raise.
Qed.

(** The depth bound only matters when it is hit.  An outcome of [get]
    other than [RecursionError], reached within some bound on the nesting of
    [get] calls, is the outcome, with the same final state, under every
    larger bound. *)
Theorem get_depth_irrelevant {P} `{BaseKernel P} (depth depth' : nat)
    (obj : referenceable) (property : string) (s s' : state P) (res : result value) :
  (depth ≤ depth')%nat ->
  get depth obj property s = (res, s') ->
  res ≠ Raise RecursionError ->
  get depth' obj property s = (res, s').
Proof.
  intros Hle Hrun Hres. induction Hle as [|depth' _ IH]; [done|].
  by apply get_deeper.
Qed.

Lemma get_depth_irrelevant_witness :
  get 5 (RFake (FakeReference Scripted.foo1)) "origin"
    (Scripted.registries_only
       [Ok (VRef Scripted.point1); Ok (VScalar (SInt 3)); Ok (VScalar (SInt 4))])
  = (Ok (VDict [(KScalar (SStr "x"), VScalar (SInt 3));
                (KScalar (SStr "y"), VScalar (SInt 4))]),
     State [] [Exchange (GetRequest Scripted.foo1 "origin") None;
               Exchange (GetRequest Scripted.point1 "x") None;
               Exchange (GetRequest Scripted.point1 "y") None]
       [] (_types (Scripted.registries_only [])) (_data_types (Scripted.registries_only []))
       ∅).
Proof.
  apply (get_depth_irrelevant 2 5 (RFake (FakeReference Scripted.foo1)) "origin"
           (Scripted.registries_only
              [Ok (VRef Scripted.point1); Ok (VScalar (SInt 3)); Ok (VScalar (SInt 4))]));
    [lia|vm_compute; reflexivity|discriminate].
Defined.

(** ** The operations of [Kernel], one by one *)


Section Kernel_operations.
Context {P : Type} `{BaseKernel P}.

(** [create] when the overrides are computed and the provider answers. *)
Lemma create_ok klass obj args (s : state P) o overrides r p' :
  heap s !! obj = Some o ->
  _get_overides klass (inst_class o) = Ok overrides ->
  provider_create (__jsii_type__ klass) (default [] args) overrides (provider s) = (Ok r, p') ->
  create klass obj args s =
  (Ok r,
   State p'
     (sent s ++ [Exchange (CreateRequest (__jsii_type__ klass) (default [] args) overrides) None])
     (<[obj := PyInst (inst_class o) (Some r)]> (heap s))
     (_types s) (_data_types s) (_refs s)).
Proof.
  intros Ho Hov Hp. rewrite create_run.
  erewrite bind_ok.
  2:{ unfold type_of, gets, lift, round_trip, ret, bind. simpl.
      rewrite Ho. simpl. rewrite Hov, Hp. reflexivity. }
  by erewrite assign_run.
Qed.

(** [get] once the reference is read and the provider has answered: what
    is left is to dereference the answer. *)
Lemma get_answered depth x property (s : state P) objref v0 p' :
  getattr_jsii_ref x s = (Ok objref, s) ->
  provider_get objref property (provider s) = (Ok v0, p') ->
  get (S depth) x property s =
  _recursize_dereference (get depth) v0
    (State p' (sent s ++ [Exchange (GetRequest objref property) None]) (heap s)
       (_types s) (_data_types s) (_refs s)).
Proof.
  intros Hx Hp. simpl. unfold _dereferenced.
  erewrite bind_ok; [reflexivity|].
  erewrite bind_ok by exact Hx. unfold round_trip. by rewrite Hp.
Qed.

Lemma getattr_bound (l : loc) (s : state P) o r :
  heap s !! l = Some o -> __jsii_ref__ o = Some r ->
  getattr_jsii_ref (RInst l) s = (Ok r, s).
Proof.
  intros Ho Hr. unfold getattr_jsii_ref, gets, ret, bind. simpl.
  by rewrite Ho; simpl; rewrite Hr.
Qed.

Lemma getattr_unbound (l : loc) (s : state P) o :
  heap s !! l = Some o -> __jsii_ref__ o = None ->
  getattr_jsii_ref (RInst l) s = (Raise (AttributeError "__jsii_ref__"), s).
Proof.
  intros Ho Hr. unfold getattr_jsii_ref, gets, raise, bind. simpl.
  by rewrite Ho; simpl; rewrite Hr.
Qed.
End Kernel_operations.

(** An object that was never bound to a reference cannot be used: [get],
    [set] and [invoke] on it raise [AttributeError] when they read
    [obj.__jsii_ref__], before any request is built; nothing is sent and
    nothing changes. *)
Theorem operations_need_reference {P} `{BaseKernel P} (l : loc) (s : state P) (o : pyinst) :
  heap s !! l = Some o ->
  __jsii_ref__ o = None ->
  (∀ depth property,
     get (S depth) (RInst l) property s = (Raise (AttributeError "__jsii_ref__"), s)) ∧
  (∀ property v,
     set (RInst l) property v s = (Raise (AttributeError "__jsii_ref__"), s)) ∧
  (∀ depth meth args,
     invoke depth (RInst l) meth args s = (Raise (AttributeError "__jsii_ref__"), s)).
Proof.
  intros Ho Hr. pose proof (getattr_unbound l s o Ho Hr) as Hget. split_and!.
  - intros depth property. simpl. unfold _dereferenced.
    apply bind_raise. by apply bind_raise.
  - intros property v. unfold set. by apply bind_raise.
  - intros depth meth args. unfold invoke, _dereferenced.
    apply bind_raise. by apply bind_raise.
Qed.

Lemma operations_need_reference_witness :
  set (RInst 0) "bar" (VScalar (SInt 1)) (Scripted.with_object [Ok (VScalar SNone)])
  = (Raise (AttributeError "__jsii_ref__"), Scripted.with_object [Ok (VScalar SNone)]).
Proof.
  apply (operations_need_reference 0 (Scripted.with_object [Ok (VScalar SNone)])
           (PyInst Scripted.Sub None)); reflexivity.
Defined.



(** [create] then [get]: the reference that [create] bound to the object
    is the one the next [get] on that object sends, and an answer that needs
    no dereferencing is returned as it is. *)
Theorem create_then_get {P} `{BaseKernel P} (klass : pyclass) (obj : loc)
    (args : option (list value)) (depth : nat) (property : string)
    (s : state P) (o : pyinst) (overrides : list Override)
    (r : ObjRef) (v : value) (p1 p2 : P) :
  heap s !! obj = Some o ->
  _get_overides klass (inst_class o) = Ok overrides ->
  provider_create (__jsii_type__ klass) (default [] args) overrides (provider s) = (Ok r, p1) ->
  provider_get r property p1 = (Ok v, p2) ->
  plain v = true ->
  (create klass obj args ;;; get (S depth) (RInst obj) property) s =
  (Ok v,
   State p2
     (sent s ++
        [Exchange (CreateRequest (__jsii_type__ klass) (default [] args) overrides) None;
         Exchange (GetRequest r property) None])
     (<[obj := PyInst (inst_class o) (Some r)]> (heap s))
     (_types s) (_data_types s) (_refs s)).
Proof.
  intros Ho Hov Hc Hg Hv.
  erewrite bind_ok by by eapply create_ok.
  erewrite get_answered; [| |simpl; exact Hg].
  - rewrite recursize_dereference_fixed; [|by destruct v..].
    simpl. by rewrite <- (assoc_L (++)).
  - eapply getattr_bound.
    + simpl. apply list_lookup_insert_eq. by eapply lookup_lt_Some.
    + reflexivity.
Qed.

Lemma create_then_get_witness :
  (create Scripted.Foo 0 None ;;; get 1 (RInst 0) "bar")
    (Scripted.with_object [Ok (VRef Scripted.foo1); Ok (VScalar (SInt 5))])
  = (Ok (VScalar (SInt 5)),
     State []
       [Exchange
          (CreateRequest "Foo" []
             [mkOverride (Some "hello") None (Some "hello");
              mkOverride None (Some "bar") (Some "bar")]) None;
        Exchange (GetRequest Scripted.foo1 "bar") None]
       [PyInst Scripted.Sub (Some Scripted.foo1)]
       (_types (Scripted.registries_only [])) (_data_types (Scripted.registries_only []))
       ∅).
Proof.
  apply (create_then_get Scripted.Foo 0 None 0 "bar"
           (Scripted.with_object [Ok (VRef Scripted.foo1); Ok (VScalar (SInt 5))])
           (PyInst Scripted.Sub None) _ Scripted.foo1 (VScalar (SInt 5))
           [Ok (VScalar (SInt 5))] []); vm_compute; reflexivity.
Defined.

(** [create] does not ask whether the object is already bound.  A second
    [create] on the same object sends a second request and replaces the
    object's reference by the new one. *)
Theorem create_twice_rebinds {P} `{BaseKernel P} (klass : pyclass) (obj : loc)
    (args1 args2 : option (list value)) (s : state P) (o : pyinst)
    (overrides : list Override) (r1 r2 : ObjRef) (p1 p2 : P) :
  heap s !! obj = Some o ->
  _get_overides klass (inst_class o) = Ok overrides ->
  provider_create (__jsii_type__ klass) (default [] args1) overrides (provider s) = (Ok r1, p1) ->
  provider_create (__jsii_type__ klass) (default [] args2) overrides p1 = (Ok r2, p2) ->
  (create klass obj args1 ;;; create klass obj args2) s =
  (Ok r2,
   State p2
     (sent s ++
        [Exchange (CreateRequest (__jsii_type__ klass) (default [] args1) overrides) None;
         Exchange (CreateRequest (__jsii_type__ klass) (default [] args2) overrides) None])
     (<[obj := PyInst (inst_class o) (Some r2)]> (heap s))
     (_types s) (_data_types s) (_refs s)).
Proof.
  intros Ho Hov Hc1 Hc2.
  erewrite bind_ok by by eapply create_ok.
  erewrite (create_ok klass obj args2 _ (PyInst (inst_class o) (Some r1)) overrides r2 p2);
    [| |exact Hov|exact Hc2].
  - simpl. by rewrite list_insert_insert_eq, <- (assoc_L (++)).
  - simpl. apply list_lookup_insert_eq. by eapply lookup_lt_Some.
Qed.

Lemma create_twice_rebinds_witness :
  heap ((create Scripted.Foo 0 None ;;; create Scripted.Foo 0 None)
          (Scripted.with_object
             [Ok (VRef Scripted.foo1); Ok (VRef (mkObjRef "Foo@2"))])).2
  = [PyInst Scripted.Sub (Some (mkObjRef "Foo@2"))].
Proof.
  rewrite (create_twice_rebinds Scripted.Foo 0 None None
             (Scripted.with_object [Ok (VRef Scripted.foo1); Ok (VRef (mkObjRef "Foo@2"))])
             (PyInst Scripted.Sub None)
             [mkOverride (Some "hello") None (Some "hello");
              mkOverride None (Some "bar") (Some "bar")]
             Scripted.foo1 (mkObjRef "Foo@2") [Ok (VRef (mkObjRef "Foo@2"))] []);
    reflexivity.
Defined.

(** [create], [register], [resolve]: once the caller has registered the
    object it created, the reference the provider issued resolves to that
    very object. *)
Theorem create_register_resolve {P} `{BaseKernel P} (k : kernel_handle P)
    (klass : pyclass) (obj : loc) (args : option (list value)) (s : state P)
    (o : pyinst) (overrides : list Override) (r : ObjRef) (p' : P) :
  heap s !! obj = Some o ->
  _get_overides klass (inst_class o) = Ok overrides ->
  provider_create (__jsii_type__ klass) (default [] args) overrides (provider s) = (Ok r, p') ->
  (create klass obj args ;;; register_reference obj ;;; resolve_reference k r) s =
  (Ok (VInst obj),
   State p'
     (sent s ++ [Exchange (CreateRequest (__jsii_type__ klass) (default [] args) overrides) None])
     (<[obj := PyInst (inst_class o) (Some r)]> (heap s))
     (_types s) (_data_types s) (<[ref r := obj]> (_refs s))).
Proof.
  intros Ho Hov Hc.
  erewrite bind_ok by by eapply create_ok.
  unfold register_reference, resolve_reference.
  erewrite bind_ok.
  2:{ eapply register_run.
      - simpl. apply list_lookup_insert_eq. by eapply lookup_lt_Some.
      - reflexivity. }
  apply resolve_held. simpl. apply lookup_insert_eq.
Qed.

Lemma create_register_resolve_witness :
  (create Scripted.Foo 0 None ;;; register_reference 0 ;;;
   resolve_reference (kernel 1) Scripted.foo1)
    (Scripted.with_object [Ok (VRef Scripted.foo1)])
  = (Ok (VInst 0),
     State []
       [Exchange
          (CreateRequest "Foo" []
             [mkOverride (Some "hello") None (Some "hello");
              mkOverride None (Some "bar") (Some "bar")]) None]
       [PyInst Scripted.Sub (Some Scripted.foo1)]
       (_types (Scripted.registries_only [])) (_data_types (Scripted.registries_only []))
       (<["Foo@1" := 0]> ∅)).
Proof.
  apply (create_register_resolve (kernel 1) Scripted.Foo 0 None
           (Scripted.with_object [Ok (VRef Scripted.foo1)])
           (PyInst Scripted.Sub None)); vm_compute; reflexivity.
Defined.

(** When the provider answers [get] with the marker of a reference the map
    holds, [get] returns the registered object itself; apart from the round
    trip nothing changes, and no object is created. *)
Theorem get_returns_registered_object {P} `{BaseKernel P} (depth : nat)
    (x : referenceable) (property : string) (s : state P)
    (objref r : ObjRef) (l : loc) (p' : P) :
  getattr_jsii_ref x s = (Ok objref, s) ->
  provider_get objref property (provider s) = (Ok (VRef r), p') ->
  _refs s !! ref r = Some l ->
  get (S depth) x property s =
  (Ok (VInst l),
   State p' (sent s ++ [Exchange (GetRequest objref property) None]) (heap s)
     (_types s) (_data_types s) (_refs s)).
Proof.
  intros Hx Hp Hl. erewrite get_answered by done.
  simpl. unfold resolve_reference. by apply resolve_held.
Qed.

Lemma get_returns_registered_object_witness :
  get 1 (RInst 0) "self"
    (set_refs (<["Foo@1" := 0]> ∅)
       (set_heap [PyInst Scripted.Sub (Some Scripted.foo1)]
          (Scripted.registries_only [Ok (VRef Scripted.foo1)])))
  = (Ok (VInst 0),
     State [] [Exchange (GetRequest Scripted.foo1 "self") None]
       [PyInst Scripted.Sub (Some Scripted.foo1)]
       (_types (Scripted.registries_only [])) (_data_types (Scripted.registries_only []))
       (<["Foo@1" := 0]> ∅)).
Proof.
  rewrite (get_returns_registered_object 0 (RInst 0) "self"
             (set_refs (<["Foo@1" := 0]> ∅)
                (set_heap [PyInst Scripted.Sub (Some Scripted.foo1)]
                   (Scripted.registries_only [Ok (VRef Scripted.foo1)])))
             Scripted.foo1 Scripted.foo1 0 []); vm_compute; reflexivity.
Defined.

(** When the provider answers [get] with the marker of an unseen reference
    whose type name is registered nowhere, [get] raises the unknown-type
    [ValueError] after the round trip: the request has gone out and been
    answered, and that stays so; locally nothing changes. *)
Theorem get_unknown_type {P} `{BaseKernel P} (depth : nat)
    (x : referenceable) (property : string) (s : state P)
    (objref r : ObjRef) (p' : P) :
  getattr_jsii_ref x s = (Ok objref, s) ->
  provider_get objref property (provider s) = (Ok (VRef r), p') ->
  _refs s !! ref r = None ->
  _types s !! rsplit_at_head (ref r) = None ->
  _data_types s !! rsplit_at_head (ref r) = None ->
  get (S depth) x property s =
  (Raise (ValueError ("Unknown type: " ++ rsplit_at_head (ref r))),
   State p' (sent s ++ [Exchange (GetRequest objref property) None]) (heap s)
     (_types s) (_data_types s) (_refs s)).
Proof.
  intros Hx Hp Hr Ht Hd. erewrite get_answered by done.
  simpl. unfold resolve_reference. rewrite resolve_branches. simpl.
  by rewrite Hr, Ht, Hd.
Qed.

Lemma get_unknown_type_witness :
  get 1 (RFake (FakeReference Scripted.foo1)) "other"
    (Scripted.registries_only [Ok (VRef Scripted.nope1)])
  = (Raise (ValueError "Unknown type: Nope"),
     State [] [Exchange (GetRequest Scripted.foo1 "other") None] []
       (_types (Scripted.registries_only [])) (_data_types (Scripted.registries_only []))
       ∅).
Proof.
  apply (get_unknown_type 0 (RFake (FakeReference Scripted.foo1)) "other"
           (Scripted.registries_only [Ok (VRef Scripted.nope1)])
           Scripted.foo1 Scripted.nope1 []); vm_compute; reflexivity.
Defined.

(** ** The module [jsii.kernel] *)

Lemma round_trip_relays {P A} (rq : Request) (call : P -> result A * P) :
  relays (round_trip rq call) rq call id.
Proof.
  intros s. unfold round_trip. by destruct (call (provider s)) as [[a|e] p'].
Qed.

(** Every operation of [jsii.kernel.Kernel] is one call of the matching
    provider method, with the request built from its arguments, and nothing
    else.  What it returns is what the provider returned, untouched (a
    marker stays a marker), [stats] wrapping the count in [Statistics]; an
    exception of the provider is the operation's exception; the heap, the
    registries and the Reference Map are exactly as before. *)
Theorem jsii_kernel_one_round_trip {P} `{BaseKernel P} :
  (∀ name version tarball,
     relays (jsii_kernel.load name version tarball)
       (LoadRequest name version tarball) (provider_load name version tarball) id) ∧
  (∀ default_args default_overrides klass,
     relays (jsii_kernel.create default_args default_overrides klass)
       (CreateRequest (__jsii_type__ klass) default_args default_overrides)
       (provider_create (__jsii_type__ klass) default_args default_overrides) id) ∧
  (∀ r, relays (jsii_kernel.delete r) (DeleteRequest r) (provider_delete r) id) ∧
  (∀ r property,
     relays (jsii_kernel.get r property) (GetRequest r property)
       (provider_get r property) id) ∧
  (∀ r property v,
     relays (jsii_kernel.set r property v) (SetRequest r property v)
       (provider_set r property v) id) ∧
  (∀ klass property,
     relays (jsii_kernel.sget klass property)
       (StaticGetRequest (__jsii_type__ klass) property)
       (provider_sget (__jsii_type__ klass) property) id) ∧
  (∀ klass property v,
     relays (jsii_kernel.sset klass property v)
       (StaticSetRequest (__jsii_type__ klass) property v)
       (provider_sset (__jsii_type__ klass) property v) id) ∧
  (∀ r meth args,
     relays (jsii_kernel.invoke r meth args)
       (InvokeRequest r meth (default [] args))
       (provider_invoke r meth (default [] args)) id) ∧
  (∀ klass meth args,
     relays (jsii_kernel.sinvoke klass meth args)
       (StaticInvokeRequest (__jsii_type__ klass) meth (default [] args))
       (provider_sinvoke (__jsii_type__ klass) meth (default [] args)) id) ∧
  relays jsii_kernel.stats StatsRequest provider_stats mkStatistics.
Proof.
  split_and!; try (intros; apply round_trip_relays).
  intros s. unfold jsii_kernel.stats, round_trip, ret, bind.
  by destruct (provider_stats (provider s)) as [[n|e] p'].
Qed.

Lemma jsii_kernel_one_round_trip_witness :
  jsii_kernel.get Scripted.foo1 "other"
    (Scripted.registries_only [Ok (VRef Scripted.nope1)])
  = (Ok (VRef Scripted.nope1),
     State [] [Exchange (GetRequest Scripted.foo1 "other") None] []
       (_types (Scripted.registries_only [])) (_data_types (Scripted.registries_only []))
       ∅).
Proof.
  pose proof (@jsii_kernel_one_round_trip Scripted.script _) as (_ & _ & _ & Hget & _).
  exact (Hget Scripted.foo1 "other" (Scripted.registries_only [Ok (VRef Scripted.nope1)])).
Defined.

(** The two kernels agree up to dereferencing.  On an object bound to [r],
    [jsii._kernel]'s [get] is [jsii.kernel]'s [get] on [r] followed by
    [_recursize_dereference]; so when [jsii.kernel]'s [get] raises, or
    returns a value that needs no dereferencing, both have the same outcome
    and leave the same state. *)
Theorem get_agrees_with_jsii_kernel {P} `{BaseKernel P} (depth : nat) (l : loc)
    (property : string) (s : state P) (o : pyinst) (r : ObjRef) :
  heap s !! l = Some o ->
  __jsii_ref__ o = Some r ->
  get (S depth) (RInst l) property s =
    (v <- jsii_kernel.get r property ;; _recursize_dereference (kernel depth) v) s ∧
  (∀ res s', jsii_kernel.get r property s = (res, s') ->
     (∀ v, res = Ok v -> plain v = true) ->
     get (S depth) (RInst l) property s = (res, s')).
Proof.
  intros Ho Hr.
  assert (get (S depth) (RInst l) property s =
          (v <- jsii_kernel.get r property ;; _recursize_dereference (kernel depth) v) s)
    as Heq.
  { simpl. unfold _dereferenced, jsii_kernel.get. unfold bind at 1 3.
    erewrite bind_ok by by eapply getattr_bound. done. }
  split; [exact Heq|]. intros res s' Hold Hplain. rewrite Heq.
  destruct res as [v|e].
  - erewrite bind_ok by exact Hold.
    pose proof (Hplain v eq_refl) as Hv.
    apply recursize_dereference_fixed; by destruct v.
  - by apply bind_raise.
Qed.

Lemma get_agrees_with_jsii_kernel_witness :
  get 1 (RInst 0) "bar"
    (set_heap [PyInst Scripted.Sub (Some Scripted.foo1)]
       (Scripted.registries_only [Raise (Exception "boom")]))
  = jsii_kernel.get Scripted.foo1 "bar"
      (set_heap [PyInst Scripted.Sub (Some Scripted.foo1)]
         (Scripted.registries_only [Raise (Exception "boom")])).
Proof.
  eapply (proj2 (get_agrees_with_jsii_kernel 0 0 "bar"
                   (set_heap [PyInst Scripted.Sub (Some Scripted.foo1)]
                      (Scripted.registries_only [Raise (Exception "boom")]))
                   (PyInst Scripted.Sub (Some Scripted.foo1)) Scripted.foo1
                   eq_refl eq_refl)).
  - apply surjective_pairing.
  - intros v. vm_compute. discriminate.
Defined.

(** ** Data values, again *)

(** The data branch of [resolve] when the provider answers every field
    with a value that needs no dereferencing. *)
Lemma resolve_data_plain {P} `{BaseKernel P} (depth : nat) (r : ObjRef) (s : state P)
    (dt : data_type) (vals : list value) (p' : P) :
  _refs s !! ref r = None ->
  _types s !! rsplit_at_head (ref r) = None ->
  _data_types s !! rsplit_at_head (ref r) = Some dt ->
  NoDup (__annotations__ dt).*1 ->
  serve_fields r (__annotations__ dt).*1 (provider s) = Some (vals, p') ->
  resolve (kernel (S depth)) r s =
  (Ok (VDict (zip (field_key <$> (__annotations__ dt).*1) vals)),
   State p' (sent s ++ (field_get r <$> (__annotations__ dt).*1)) (heap s)
     (_types s) (_data_types s) (_refs s)).
Proof.
  intros Hr Ht Hd Hnd Hserve. rewrite resolve_branches, Hr, Ht, Hd.
  erewrite bind_ok; [reflexivity|].
  rewrite (resolve_fields_plain depth r _ [] s vals p'); [done| |done].
  simpl. by apply (NoDup_fmap_2 field_key).
Qed.

(** [register_data_type] then [resolve]: once a descriptor is registered
    under a name that no object type has, an unseen reference with that type
    name resolves to the mapping of the descriptor's fields, fetched one by
    one from the provider. *)
Theorem register_data_type_then_resolve {P} `{BaseKernel P} (depth : nat)
    (dt : data_type) (r : ObjRef) (s : state P) (vals : list value) (p' : P) :
  rsplit_at_head (ref r) = dt_jsii_type dt ->
  _refs s !! ref r = None ->
  _types s !! dt_jsii_type dt = None ->
  NoDup (__annotations__ dt).*1 ->
  serve_fields r (__annotations__ dt).*1 (provider s) = Some (vals, p') ->
  (register_data_type dt ;;; resolve (kernel (S depth)) r) s =
  (Ok (VDict (zip (field_key <$> (__annotations__ dt).*1) vals)),
   State p' (sent s ++ (field_get r <$> (__annotations__ dt).*1)) (heap s)
     (_types s) (<[dt_jsii_type dt := dt]> (_data_types s)) (_refs s)).
Proof.
  intros Hfqn Hr Ht Hnd Hserve. unfold register_data_type, modify. unfold bind at 1.
  rewrite (resolve_data_plain depth r _ dt vals p'); simpl; try done.
  - by rewrite Hfqn.
  - rewrite Hfqn. apply lookup_insert_eq.
Qed.

Lemma register_data_type_then_resolve_witness :
  (register_data_type Scripted.Point ;;; resolve (kernel 1) Scripted.point1)
    (State [Ok (VScalar (SInt 3)); Ok (VScalar (SInt 4))] [] [] ∅ ∅ ∅)
  = (Ok (VDict [(KScalar (SStr "x"), VScalar (SInt 3));
                (KScalar (SStr "y"), VScalar (SInt 4))]),
     State []
       [Exchange (GetRequest Scripted.point1 "x") None;
        Exchange (GetRequest Scripted.point1 "y") None]
       [] ∅ (<["Point" := Scripted.Point]> ∅) ∅).
Proof.
  rewrite (register_data_type_then_resolve 0 Scripted.Point Scripted.point1
             (State [Ok (VScalar (SInt 3)); Ok (VScalar (SInt 4))] [] [] ∅ ∅ ∅)
             [VScalar (SInt 3); VScalar (SInt 4)] []); try reflexivity.
  vm_compute. repeat constructor; rewrite ?elem_of_cons, ?elem_of_nil; naive_solver.
Defined.

(** A data value is fetched anew on every resolution.  Resolving the same
    data reference twice asks the provider for every field twice; the second
    result holds the second answers, whatever the first were, and nothing is
    kept locally in between. *)
Theorem resolve_data_type_twice {P} `{BaseKernel P} (depth : nat) (r : ObjRef)
    (s : state P) (dt : data_type) (vals1 vals2 : list value) (p1 p2 : P) :
  _refs s !! ref r = None ->
  _types s !! rsplit_at_head (ref r) = None ->
  _data_types s !! rsplit_at_head (ref r) = Some dt ->
  NoDup (__annotations__ dt).*1 ->
  serve_fields r (__annotations__ dt).*1 (provider s) = Some (vals1, p1) ->
  serve_fields r (__annotations__ dt).*1 p1 = Some (vals2, p2) ->
  (resolve (kernel (S depth)) r ;;; resolve (kernel (S depth)) r) s =
  (Ok (VDict (zip (field_key <$> (__annotations__ dt).*1) vals2)),
   State p2
     (sent s ++ (field_get r <$> (__annotations__ dt).*1)
             ++ (field_get r <$> (__annotations__ dt).*1))
     (heap s) (_types s) (_data_types s) (_refs s)).
Proof.
  intros Hr Ht Hd Hnd Hs1 Hs2.
  erewrite bind_ok by by eapply resolve_data_plain.
  rewrite (resolve_data_plain depth r _ dt vals2 p2); simpl; try done.
  by rewrite <- (assoc_L (++)).
Qed.

Lemma resolve_data_type_twice_witness :
  (resolve (kernel 1) Scripted.point1 ;;; resolve (kernel 1) Scripted.point1)
    (Scripted.registries_only
       [Ok (VScalar (SInt 3)); Ok (VScalar (SInt 4));
        Ok (VScalar (SInt 5)); Ok (VScalar (SInt 6))])
  = (Ok (VDict [(KScalar (SStr "x"), VScalar (SInt 5));
                (KScalar (SStr "y"), VScalar (SInt 6))]),
     State []
       [Exchange (GetRequest Scripted.point1 "x") None;
        Exchange (GetRequest Scripted.point1 "y") None;
        Exchange (GetRequest Scripted.point1 "x") None;
        Exchange (GetRequest Scripted.point1 "y") None]
       [] (_types (Scripted.registries_only [])) (_data_types (Scripted.registries_only []))
       ∅).
Proof.
  rewrite (resolve_data_type_twice 0 Scripted.point1
             (Scripted.registries_only
                [Ok (VScalar (SInt 3)); Ok (VScalar (SInt 4));
                 Ok (VScalar (SInt 5)); Ok (VScalar (SInt 6))])
             Scripted.Point
             [VScalar (SInt 3); VScalar (SInt 4)] [VScalar (SInt 5); VScalar (SInt 6)]
             [Ok (VScalar (SInt 5)); Ok (VScalar (SInt 6))] []);
    try (vm_compute; reflexivity).
  vm_compute. repeat constructor; rewrite ?elem_of_cons, ?elem_of_nil; naive_solver.
Defined.
